(** * CloudHunter: a shallow embedding of [cloudhunter.py]

    The development follows the layout of the script: the Python string
    primitives the script relies on, the [State] / [Risk] enumerations and
    the [Bucket] class with its classifier and its ACL enumerators, the
    [HiddenGems] crawl node, the permutation generator and the two probing
    workers.  Network answers are read from an oracle record; every request
    that is issued is appended to a request log, so that "no request was
    made" is a statement about the log. *)

From Stdlib Require Import String Ascii List ZArith Bool Lia.
From Stdlib Require Import Sorting.Sorted DecimalString.
Import ListNotations.
Local Open Scope string_scope.
Local Open Scope list_scope.

(* ===================================================================== *)
(** * Python string primitives                                            *)
(* ===================================================================== *)

Module Py.

(** [needle in hay] for two [str] values. *)
Fixpoint contains (needle hay : string) : bool :=
  match hay with
  | EmptyString => String.prefix needle EmptyString
  | String _ rest => String.prefix needle hay || contains needle rest
  end.

(** [s.startswith(p)] *)
Definition startswith (p s : string) : bool := String.prefix p s.

(** [s.endswith(p)] *)
Definition endswith (p s : string) : bool :=
  let n := String.length s in
  let m := String.length p in
  (m <=? n)%nat && String.eqb (String.substring (n - m) m s) p.

(** [s.split(sep)] for a one-character separator: never empty, the empty
    string splits into one empty field. *)
Fixpoint split (sep : ascii) (s : string) : list string :=
  match s with
  | EmptyString => [EmptyString]
  | String c rest =>
      if Ascii.eqb c sep then EmptyString :: split sep rest
      else match split sep rest with
           | [] => [String c EmptyString]
           | field :: fields => String c field :: fields
           end
  end.

(** [sep.join(fields)] *)
Fixpoint join (sep : string) (fields : list string) : string :=
  match fields with
  | [] => EmptyString
  | [f] => f
  | f :: rest => f ++ sep ++ join sep rest
  end.

(** [s[:n]] *)
Definition take (n : nat) (s : string) : string := String.substring 0 n s.

(** [l[-1]] of a list known to be non-empty ([split] never returns []). *)
Definition last_field (l : list string) : string := List.last l EmptyString.

(** ASCII lower-casing, as [str.lower] acts on header names. *)
Definition lower_ascii (c : ascii) : ascii :=
  let n := nat_of_ascii c in
  if ((65 <=? n) && (n <=? 90))%nat then ascii_of_nat (n + 32) else c.

Fixpoint lower (s : string) : string :=
  match s with
  | EmptyString => EmptyString
  | String c rest => String (lower_ascii c) (lower rest)
  end.

(** [template.format(a, b, ...)] for templates whose only replacement fields
    are the automatically numbered [{}].  [None] is the [IndexError] Python
    raises when the template has more fields than there are arguments. *)
Fixpoint format (template : string) (args : list string) : option string :=
  match template with
  | EmptyString => Some EmptyString
  | String "{" (String "}" rest) =>
      match args with
      | [] => None
      | a :: args' => option_map (String.append a) (format rest args')
      end
  | String c rest => option_map (String c) (format rest args)
  end.

(** [[f(x) for x in xs]] when [f] may raise: the first failure aborts. *)
Fixpoint comprehension {A B : Type} (f : A -> option B) (xs : list A)
  : option (list B) :=
  match xs with
  | [] => Some []
  | x :: rest =>
      match f x with
      | None => None
      | Some y => option_map (cons y) (comprehension f rest)
      end
  end.

Definition upper_ascii (c : ascii) : ascii :=
  let n := nat_of_ascii c in
  if ((97 <=? n) && (n <=? 122))%nat then ascii_of_nat (n - 32) else c.

(** [s.capitalize()] *)
Definition capitalize (s : string) : string :=
  match s with
  | EmptyString => EmptyString
  | String c rest => String (upper_ascii c) (lower rest)
  end.

(** [l.sort()] on a list of [str]: insertion into the sorted prefix. *)
Fixpoint insert_sorted (x : string) (l : list string) : list string :=
  match l with
  | [] => [x]
  | y :: rest => if String.leb x y then x :: l else y :: insert_sorted x rest
  end.

Fixpoint sort (l : list string) : list string :=
  match l with
  | [] => []
  | x :: rest => insert_sorted x (sort rest)
  end.

(** Truthiness of a [str]. *)
Definition truthy (s : string) : bool := negb (String.eqb s EmptyString).

End Py.

(* ===================================================================== *)
(** * Permutation generator                                               *)
(* ===================================================================== *)

Definition rules : list string := ["{}-{}"; "{}.{}"; "{}{}"].

(** The [for affix in lines] loop of [generate_permutations]; [p] is the
    list built so far. *)
Fixpoint permutations_loop (base_name : string) (lines : list string)
  (p : list string) : option (list string) :=
  match lines with
  | [] => Some p
  | affix :: rest =>
      match Py.comprehension (fun x => Py.format x [affix; base_name]) rules with
      | None => None
      | Some first =>
          match Py.comprehension (fun x => Py.format x [base_name; affix]) rules with
          | None => None
          | Some second => permutations_loop base_name rest ((p ++ first) ++ second)
          end
      end
  end.

(** [generate_permutations] once the dictionary file has been read:
    [lines] is [f.read().splitlines()]. *)
Definition generate_permutations_lines (base_name : string)
  (lines : list string) : option (list string) :=
  permutations_loop base_name lines [base_name].

(** [generate_permutations(base_name, dict_file)]; [fs] is the file system,
    giving the lines of a readable file.  [None] stands for an exception
    ([open] failing, or [format]). *)
Definition generate_permutations (fs : string -> option (list string))
  (base_name dict_file : string) : option (list string) :=
  match fs dict_file with
  | None => None
  | Some lines => generate_permutations_lines base_name lines
  end.

(* ===================================================================== *)
(** * Values shared by the classes                                        *)
(* ===================================================================== *)

Inductive State := CLOSE | DOMAIN | PRIVATE | OPEN | UNKNOWN.

Inductive Risk := LOW | MEDIUM | HIGH.

Definition State_eqb (a b : State) : bool :=
  match a, b with
  | CLOSE, CLOSE | DOMAIN, DOMAIN | PRIVATE, PRIVATE
  | OPEN, OPEN | UNKNOWN, UNKNOWN => true
  | _, _ => false
  end.

(** [Bucket.name] is a [str] on the brute-force path; the fingerprint
    worker may also hand over the slice [u.path.split('/')[1:2]], a list. *)
Inductive PyName :=
| PStr (s : string)
| PList (l : list string).

(** [a == b] for a name against a [str]: a list never equals a [str]. *)
Definition name_eqb (n : PyName) (s : string) : bool :=
  match n with
  | PStr t => String.eqb t s
  | PList _ => false
  end.

(** [str(n)], as an f-string renders a name.  For a list this is the
    [repr] of its elements, written here for elements free of quotes,
    backslashes and unprintable characters. *)
Definition name_str (n : PyName) : string :=
  match n with
  | PStr s => s
  | PList l => "[" ++ Py.join ", " (map (fun s => ("'" ++ s ++ "'")%string) l) ++ "]"
  end.

(** [requests.structures.CaseInsensitiveDict]: its one instance attribute
    [_store] maps the lower-cased key to the pair (key as given, value). *)
Record CaseInsensitiveDict := {
  _store : list (string * (string * string))
}.

Fixpoint store_lookup (k : string) (st : list (string * (string * string)))
  : option string :=
  match st with
  | [] => None
  | (k', (_, v)) :: rest => if String.eqb k k' then Some v else store_lookup k rest
  end.

(** [headers.get(key, None)]; also decides [key in headers.keys()]. *)
Definition headers_get (h : CaseInsensitiveDict) (key : string) : option string :=
  store_lookup (Py.lower key) (_store h).

Definition headers_of (l : list (string * string)) : CaseInsensitiveDict :=
  {| _store := map (fun kv => (Py.lower (fst kv), kv)) l |}.

(** The attribute names [getattr] finds on a [CaseInsensitiveDict]: the
    instance attribute and what the class and its bases define. *)
Definition CaseInsensitiveDict_attributes : list string :=
  [ "_store"; "lower_items"; "copy"; "get"; "keys"; "items"; "values";
    "pop"; "popitem"; "clear"; "update"; "setdefault";
    "__init__"; "__setitem__"; "__getitem__"; "__delitem__"; "__iter__";
    "__len__"; "__eq__"; "__repr__"; "__contains__"; "__class__";
    "__dict__"; "__doc__"; "__module__"; "__hash__"; "__ne__";
    "__reversed__"; "__slots__"; "__weakref__"; "__str__"; "__sizeof__";
    "__dir__"; "__format__"; "__getattribute__"; "__setattr__";
    "__delattr__"; "__reduce__"; "__reduce_ex__"; "__new__";
    "__init_subclass__"; "__subclasshook__"; "__class_getitem__";
    "__abstractmethods__"; "_abc_impl";
    "__lt__"; "__le__"; "__gt__"; "__ge__"; "__getstate__" ].

(** [hasattr(headers, name)]: attribute lookup; the mapping's keys are not
    attributes. *)
Definition hasattr (h : CaseInsensitiveDict) (name : string) : bool :=
  existsb (String.eqb name) CaseInsensitiveDict_attributes.

(** [requests.Response], the fields the script reads. *)
#[warnings="-register-all"]
Inductive Response := mkResponse {
  status_code : Z;
  headers : CaseInsensitiveDict;
  history : list Response;
  url : string
}.

(** One [Grant] of an S3 access control list as [xmltodict] returns it:
    [Grantee] is a dictionary of strings, [Permission] a string. *)
Record Grant := {
  Grantee : list (string * string);
  Permission : string
}.

(** [xmltodict] gives a dictionary for an element that occurs once and a
    list for one that is repeated. *)
Inductive GrantNode :=
| OneGrant (g : Grant)
| ManyGrants (gs : list Grant).

(** [acl_dict['AccessControlPolicy']['AccessControlList']]: [None] for an
    empty element, else a dictionary that may hold [Grant]. *)
Inductive AccessControlList :=
| EmptyElement
| ListElement (grant : option GrantNode).

(** The parsed answer of [?acl]. *)
Inductive AclDocument :=
| OtherRoot
| AccessControlPolicy (acl : option AccessControlList).

(** [Bucket.acl], set by the Google and the AWS enumerator. *)
Inductive AclAttr :=
| GoogleAcl (permissions : list string)
| AwsAcl (grant : GrantNode).

Record Bucket := mkBucket {
  name : PyName;
  domain : string;
  cloud : string;
  srv_name : string;
  state : State;
  risk : Risk;
  details : list string;
  acl : option AclAttr
}.

(** [Bucket(name, domain, cloud, srv_name)] *)
Definition Bucket_init (name : PyName) (domain cloud srv_name : string) : Bucket :=
  mkBucket name domain cloud srv_name CLOSE LOW [] None.

(* ===================================================================== *)
(** * Effects: state, exceptions, the network                             *)
(* ===================================================================== *)

Inductive exn :=
| UnboundLocalError
| KeyError
| TypeError
| RequestError.

Inductive outcome (A : Type) :=
| Returned (a : A)
| Raised (e : exn).
Arguments Returned {A} a.
Arguments Raised {A} e.

(** A computation over a mutable state [S].  An exception leaves the
    mutations made so far in place. *)
Definition M (S A : Type) : Type := S -> outcome A * S.

Definition ret {S A} (a : A) : M S A := fun s => (Returned a, s).

Definition bind {S A B} (m : M S A) (k : A -> M S B) : M S B :=
  fun s =>
    match m s with
    | (Returned a, s') => k a s'
    | (Raised e, s') => (Raised e, s')
    end.

Definition raise {S A} (e : exn) : M S A := fun s => (Raised e, s).

Declare Scope py_scope.
Delimit Scope py_scope with py.
Notation "x <- m ;; k" := (bind m (fun x => k))
  (at level 61, m at next level, right associativity) : py_scope.
Notation "m ;; k" := (bind m (fun _ => k))
  (at level 61, right associativity) : py_scope.
Local Open Scope py_scope.

Definition when {S} (c : bool) (m : M S unit) : M S unit :=
  if c then m else ret tt.

(** What goes over the wire. *)
Inductive Request :=
| DNS (hostname : string)
| HEAD (url : string)
| GET (url : string).

(** The answers of the outside world, one per request.  [None] is a
    request that raises (time-out, refused connection, TLS or parse
    error). *)
Record Network := {
  resolves : string -> bool;
  head_response : string -> option Response;
  get_status_code : string -> option Z;
  get_json_permissions : string -> option (option (list string));
  get_acl_document : string -> option AclDocument
}.

(** The state a [Bucket] method runs in: [self] and the request log. *)
Definition Method (A : Type) : Type := M (Bucket * list Request) A.

Definition get_self : Method Bucket := fun s => (Returned (fst s), s).

Definition update (f : Bucket -> Bucket) : Method unit :=
  fun s => (Returned tt, (f (fst s), snd s)).

Definition send {X} (r : Request) : M (X * list Request) unit :=
  fun s => (Returned tt, (fst s, snd s ++ [r])).

Definition set_state (v : State) (b : Bucket) : Bucket :=
  mkBucket (name b) (domain b) (cloud b) (srv_name b) v (risk b) (details b) (acl b).

Definition set_risk (v : Risk) (b : Bucket) : Bucket :=
  mkBucket (name b) (domain b) (cloud b) (srv_name b) (state b) v (details b) (acl b).

Definition details_append (d : string) (b : Bucket) : Bucket :=
  mkBucket (name b) (domain b) (cloud b) (srv_name b) (state b) (risk b)
    (details b ++ [d]) (acl b).

Definition set_acl (v : AclAttr) (b : Bucket) : Bucket :=
  mkBucket (name b) (domain b) (cloud b) (srv_name b) (state b) (risk b)
    (details b) (Some v).

(* ===================================================================== *)
(** * class Bucket                                                        *)
(* ===================================================================== *)

Definition string_of_Z (z : Z) : string := DecimalString.NilZero.string_of_int (Z.to_int z).

(** [code in [a, b, c]] *)
Definition code_in (code : Z) (l : list Z) : bool := existsb (Z.eqb code) l.

Definition COMMON_CONTAINERS : list string :=
  [ "images"; "mycontainer"; "downloads"; "backup"; "backups"; "web";
    "website"; "private"; "uploads"; "page"; "static"; "logs"; "admin" ].

Definition google_api (n : PyName) : string :=
  ("https://www.googleapis.com/storage/v1/b/" ++ name_str n ++
   "/iam/testPermissions?permissions=storage.buckets.delete&permissions=storage.buckets.get&permissions=storage.buckets.getIamPolicy&permissions=storage.buckets.setIamPolicy&permissions=storage.buckets.update&permissions=storage.objects.create&permissions=storage.objects.delete&permissions=storage.objects.get&permissions=storage.objects.list&permissions=storage.objects.update")%string.

Definition aws_api (n : PyName) : string :=
  ("https://" ++ name_str n ++ ".s3.amazonaws.com/?acl")%string.

Definition shares_url (domain : string) : string :=
  ("https://" ++ domain ++ "/?comp=list")%string.

Definition container_url (domain : string) (container : PyName) : string :=
  ("https://" ++ domain ++ "/" ++ name_str container ++ "?restype=container&comp=list")%string.

(** [",".join(findings)]: a [TypeError] when an item is not a [str]. *)
Fixpoint findings_strings (findings : list PyName) : option (list string) :=
  match findings with
  | [] => Some []
  | PStr s :: rest => option_map (cons s) (findings_strings rest)
  | PList _ :: _ => None
  end.

(** *** The grant loop of [_aws_acl] *)

(** [rights]: a dictionary from grantee to symbols, in insertion order. *)
Definition Rights := list (string * string).

Fixpoint dict_get (k : string) (d : list (string * string)) : option string :=
  match d with
  | [] => None
  | (k', v) :: rest => if String.eqb k k' then Some v else dict_get k rest
  end.

(** [k in d] *)
Definition dict_has (k : string) (d : list (string * string)) : bool :=
  match dict_get k d with Some _ => true | None => false end.

(** [d[k] = v] for a key that is already there: the position is kept. *)
Fixpoint dict_set (k v : string) (d : list (string * string)) : list (string * string) :=
  match d with
  | [] => [(k, v)]
  | (k', v') :: rest =>
      if String.eqb k k' then (k', v) :: rest else (k', v') :: dict_set k v rest
  end.

(** [d[k]]: [KeyError] for a missing key. *)
Definition dict_item {S} (k : string) (d : list (string * string)) : M S string :=
  match dict_get k d with
  | Some v => ret v
  | None => raise KeyError
  end.

(** The locals of the loop that outlive one turn.  [symb] is unbound
    until its first assignment; the body assigns it on three of the four
    paths of its second [if] chain. *)
Record Locals := {
  rights : Rights;
  symb : option string
}.

(** The first [if] chain of the body: the grantee key. *)
Definition grantee_user (grant : Grant) : Method string :=
  xsi <- dict_item "@xsi:type" (Grantee grant) ;;
  if String.eqb xsi "CanonicalUser" && dict_has "DisplayName" (Grantee grant) then
    dict_item "DisplayName" (Grantee grant)
  else if String.eqb xsi "Group" then
    uri <- dict_item "URI" (Grantee grant) ;;
    ret (Py.last_field (Py.split "/" uri))
  else
    id <- dict_item "ID" (Grantee grant) ;;
    ret (Py.take 8 id).

(** The second [if] chain: it has no [else], an unlisted [Permission]
    leaves [symb] and the risk as they are. *)
Definition permission_symbol (grant : Grant) (l : Locals) : Method Locals :=
  let p := Permission grant in
  if String.eqb p "READ" || String.eqb p "READ_ACP" then
    ret {| rights := rights l; symb := Some "R" |}
  else if String.eqb p "WRITE" || String.eqb p "WRITE_ACL" then
    update (set_risk HIGH) ;;
    ret {| rights := rights l; symb := Some "W" |}
  else if String.eqb p "FULL_CONTROL" then
    update (set_risk HIGH) ;;
    ret {| rights := rights l; symb := Some "F" |}
  else ret l.

(** Reading the local [symb]. *)
Definition read_symb (l : Locals) : Method string :=
  match symb l with
  | Some s => ret s
  | None => raise UnboundLocalError
  end.

(** The third [if] chain: [rights[user] = symb], or [rights[user] += symb]
    when [symb] is not in it yet.  Either way [symb] is read. *)
Definition record_right (user : string) (l : Locals) : Method Locals :=
  match dict_get user (rights l) with
  | None =>
      s <- read_symb l ;;
      ret {| rights := rights l ++ [(user, s)]; symb := symb l |}
  | Some had =>
      s <- read_symb l ;;
      if negb (Py.contains s had) then
        ret {| rights := dict_set user (had ++ s)%string (rights l); symb := symb l |}
      else ret l
  end.

(** One turn of [for right in self.acl]; [grant] is the loop variable. *)
Definition grant_step (grant : Grant) (l : Locals) : Method Locals :=
  user <- grantee_user grant ;;
  l' <- permission_symbol grant l ;;
  record_right user l'.

Fixpoint grant_loop (grants : list Grant) (l : Locals) : Method Locals :=
  match grants with
  | [] => ret l
  | grant :: rest => l' <- grant_step grant l ;; grant_loop rest l'
  end.

(** [f'{user} [{symb}]'] *)
Definition detail_line (entry : string * string) : string :=
  (fst entry ++ " [" ++ snd entry ++ "]")%string.

Definition details_extend (ds : list string) (b : Bucket) : Bucket :=
  mkBucket (name b) (domain b) (cloud b) (srv_name b) (state b) (risk b)
    (details b ++ ds) (acl b).

(** [x in l] for a list of [str]. *)
Definition mem (x : string) (l : list string) : bool := existsb (String.eqb x) l.

Section Bucket_methods.

(** The network of one run, and the global [base_name] set by the main
    block before any bucket is classified. *)
Variable net : Network.
Variable base_name : string.

(** [requests.get(url, ...)] read for its status code. *)
Definition requests_get_status (url : string) : Method (option Z) :=
  send (GET url) ;;
  ret (get_status_code net url).

(** The [for container in ...] loop of [_azure_acl]; a request that raises
    is skipped by [continue]. *)
Fixpoint probe_containers (domain : string) (containers findings : list PyName)
  : Method (list PyName) :=
  match containers with
  | [] => ret findings
  | container :: rest =>
      r <- requests_get_status (container_url domain container) ;;
      match r with
      | Some code =>
          if (code =? 200)%Z then probe_containers domain rest (findings ++ [container])
          else probe_containers domain rest findings
      | None => probe_containers domain rest findings
      end
  end.

(** The first block of [_azure_acl].  The result tells whether the method
    goes on: the [except] branch returns from the whole method. *)
Definition azure_shares : Method bool :=
  b <- get_self ;;
  if Py.contains "file.core.windows.net" (domain b) then
    r <- requests_get_status (shares_url (domain b)) ;;
    match r with
    | Some code =>
        when (code =? 200)%Z
          (update (set_risk HIGH) ;;
           update (set_state OPEN) ;;
           update (details_append "List Shares")) ;;
        ret true
    | None => ret false
    end
  else ret true.

(** The second block of [_azure_acl]. *)
Definition azure_containers : Method unit :=
  b <- get_self ;;
  if Py.contains "blob.core.windows.net" (domain b) then
    let containers :=
      (map PStr COMMON_CONTAINERS ++ [name b]) ++
      (if negb (name_eqb (name b) base_name) then [PStr base_name] else []) in
    findings <- probe_containers (domain b) containers [] ;;
    match findings with
    | [] => ret tt
    | _ :: _ =>
        update (set_risk HIGH) ;;
        update (set_state OPEN) ;;
        match findings_strings findings with
        | Some names =>
            update (details_append ("Containers: " ++ Py.join "," names)%string)
        | None => raise TypeError
        end
    end
  else ret tt.

Definition _azure_acl : Method unit :=
  go_on <- azure_shares ;;
  if go_on then azure_containers else ret tt.

Definition _google_acl : Method unit :=
  b <- get_self ;;
  send (GET (google_api (name b))) ;;
  match get_json_permissions net (google_api (name b)) with
  | None => raise RequestError
  | Some None => ret tt
  | Some (Some []) => ret tt
  | Some (Some ((_ :: _) as permissions)) =>
      update (set_acl (GoogleAcl permissions)) ;;
      let user := "AllUsers" in
      let symb := EmptyString in
      let symb :=
        if mem "storage.objects.list" permissions then (symb ++ "L")%string else symb in
      let symb :=
        if mem "storage.objects.get" permissions then (symb ++ "R")%string else symb in
      symb <-
        (if mem "storage.objects.create" permissions
            || mem "storage.objects.delete" permissions
            || mem "storage.objects.update" permissions
         then update (set_risk HIGH) ;; ret (symb ++ "W")%string
         else ret symb) ;;
      symb <-
        (if mem "storage.buckets.setIamPolicy" permissions
         then update (set_risk HIGH) ;; ret (symb ++ "V")%string
         else ret symb) ;;
      update (details_append (detail_line (user, symb)))
  end.

Definition _aws_acl : Method unit :=
  b <- get_self ;;
  send (GET (aws_api (name b))) ;;
  match get_acl_document net (aws_api (name b)) with
  | None => raise RequestError
  | Some OtherRoot => ret tt
  | Some (AccessControlPolicy None) => raise KeyError
  | Some (AccessControlPolicy (Some EmptyElement)) => raise TypeError
  | Some (AccessControlPolicy (Some (ListElement None))) => ret tt
  | Some (AccessControlPolicy (Some (ListElement (Some grant)))) =>
      update (set_acl (AwsAcl grant)) ;;
      match grant with
      | OneGrant _ =>
          (* the loop runs over the keys of a dictionary, [right['Grantee']]
             indexes a [str] *)
          raise TypeError
      | ManyGrants grants =>
          l <- grant_loop grants {| rights := []; symb := None |} ;;
          update (details_extend (map detail_line (rights l)))
      end
  end.

Definition get_rights : Method unit :=
  b <- get_self ;;
  if String.eqb (cloud b) "azure" then _azure_acl
  else if negb (State_eqb (state b) OPEN) then ret tt
  else if String.eqb (cloud b) "google" then _google_acl
  else if String.eqb (cloud b) "aws" then _aws_acl
  else ret tt.

(** The condition of the redirect block of [process_status]. *)
Definition redirected (response : Response) : bool :=
  match history response with
  | [] => false
  | first :: _ => code_in (status_code first) [301; 302]%Z
  end.

(** [process_status] for a response that is not [False] runs four blocks in
    a row; the first three are given one definition each. *)

(** [if self.name == base_name: self.risk = Risk.MEDIUM] *)
Definition seed_rule : Method unit :=
  b <- get_self ;;
  when (name_eqb (name b) base_name) (update (set_risk MEDIUM)).

(** The [if] / [elif] chain on [response.status_code]. *)
Definition status_rules (response : Response) : Method unit :=
  if (status_code response =? 200)%Z then
    update (set_state OPEN) ;;
    update (set_risk MEDIUM) ;;
    match headers_get (headers response) "Content-Type" with
    | Some content_type =>
        when (Py.truthy content_type && Py.contains "application/xml" content_type)
          (update (set_risk HIGH) ;;
           update (details_append "LIST"))
    | None => ret tt
    end
  else if code_in (status_code response) [400; 401; 403]%Z then
    update (set_state PRIVATE)
  else if code_in (status_code response) [500; 502; 503]%Z then
    update (set_state OPEN) ;;
    update (set_risk MEDIUM) ;;
    update (details_append "WebApp Error")
  else
    update (set_state UNKNOWN) ;;
    update (set_risk MEDIUM) ;;
    update (details_append ("Response: " ++ string_of_Z (status_code response))%string).

(** [True] when the final URL looks like an authentication page. *)
Definition auth_url (response : Response) : bool :=
  Py.contains "login" (url response) || Py.contains "signin" (url response).

(** The block guarded by [len(response.history) != 0 and ...]. *)
Definition redirect_block (response : Response) : Method unit :=
  when (redirected response)
    (update (details_append ("Redirect " ++ url response)%string) ;;
     when (auth_url response)
       (update (set_state PRIVATE) ;;
        update (set_risk LOW))).

(** The three blocks before [self.get_rights()]. *)
Definition classify (response : Response) : Method unit :=
  seed_rule ;;
  status_rules response ;;
  redirect_block response.

(** [process_status(response)]; [None] is the [False] that [check_host]
    returns. *)
Definition process_status (response : option Response) : Method unit :=
  match response with
  | None => update (set_state DOMAIN)
  | Some response => classify response ;; get_rights
  end.

End Bucket_methods.

(* ===================================================================== *)
(** * Library interfaces: urllib.parse, tldextract, set                   *)
(* ===================================================================== *)

(** [urllib.parse.ParseResult], the attributes the script reads. *)
Module urllib.
Record ParseResult := {
  scheme : string;
  netloc : string;
  path : string;
  query : string
}.
End urllib.
Export urllib.

(** [tldextract.extract(url)], the two attributes the script reads. *)
Record ExtractResult := {
  registered_domain_label : string;   (* [.domain] *)
  fqdn : string                       (* [.fqdn] *)
}.

Record UrlLib := {
  urlparse : string -> ParseResult;
  urljoin : string -> string -> string;
  tldextract_extract : string -> ExtractResult
}.

(** [list(set(l))]: every element of [l] once.  The order is that of the
    hash table, which for [str] keys changes from one interpreter run to
    the next; nothing else is known about it. *)
Record PySet := {
  list_of_set : list string -> list string;
  list_of_set_NoDup : forall l, NoDup (list_of_set l);
  list_of_set_In : forall l x, In x (list_of_set l) <-> In x l
}.

(* ===================================================================== *)
(** * class HiddenGems                                                    *)
(* ===================================================================== *)

Module Crawl.

(** A crawl node after [crawl] has filled it: [urls] is the dictionary of
    URL categories in insertion order, [childs] the nodes of the pages
    crawled from this one. *)
#[warnings="-register-all"]
Inductive HiddenGems := mkHiddenGems {
  url : string;
  childs : list HiddenGems;
  urls : list (string * list string);
  scheme : string;
  domain : string;
  base_url : string
}.

Section Methods.

Variable lib : UrlLib.
Variable pyset : PySet.

Definition get_base_url (url : string) : string :=
  let u := urlparse lib url in
  let path :=
    if Py.truthy (path u) then Py.join "/" (removelast (Py.split "/" (path u)))
    else path u in
  (urllib.scheme u ++ "://" ++ netloc u ++ path)%string.

Definition filter_scope (self : HiddenGems) (values : list string) : list string :=
  filter (fun x => String.eqb (domain self) (netloc (urlparse lib x))) values.

(** [normalize_url(src, full_query)] with the default [base_url=None]. *)
Definition normalize_url (self : HiddenGems) (src : string) (full_query : bool)
  : string :=
  let u := urlparse lib (urljoin lib (base_url self) src) in
  if full_query && Py.truthy (query u) then
    (urllib.scheme u ++ "://" ++ netloc u ++ path u ++ "?" ++ query u)%string
  else
    (urllib.scheme u ++ "://" ++ netloc u ++ path u)%string.

Fixpoint list_urls (self : HiddenGems) (scope full_query : bool) : list string :=
  let result :=
    flat_map (fun url_list => filter (Py.startswith "http") url_list)
             (map snd (urls self)) in
  let result :=
    result ++ flat_map (fun child => list_urls child scope false) (childs self) in
  let result := if scope then filter_scope self result else result in
  let result := map (fun x => normalize_url self x full_query) result in
  let result := Py.sort result in
  list_of_set pyset result.

(** [extract_links] from the [href] values of the anchors of the page, in
    document order ([s.get('href')] for [s] in [tree.find_all('a')]; an
    anchor without the attribute gives [None]). *)
Definition extract_links (self : HiddenGems) (hrefs : list (option string))
  : list string :=
  list_of_set pyset
    (flat_map (fun h => match h with
                        | Some src => if Py.truthy src then [normalize_url self src true] else []
                        | None => []
                        end) hrefs).

(** [extract_cors(headers)]; [headers[...]] raises [KeyError] on a missing
    key. *)
Definition extract_cors (headers : CaseInsensitiveDict) : outcome (list string) :=
  let cors := [] in
  if hasattr headers "Access-Control-Allow-Origin" then
    match headers_get headers "Access-Control-Allow-Origin" with
    | None => Raised KeyError
    | Some value =>
        let cors := Py.split "," value in
        if mem "*" cors then Returned [] else Returned cors
    end
  else Returned cors.

End Methods.

End Crawl.

(* ===================================================================== *)
(** * The workers                                                         *)
(* ===================================================================== *)

Definition googleCloud : list (string * string) :=
  [ ("Google Storage", "storage.googleapis.com");
    ("Google App Engine", "appspot.com") ].

Definition awsCloud : list (string * string) :=
  [ ("AWS Bucket", "s3.amazonaws.com") ].

Definition azureCloud : list (string * string) :=
  [ ("Storage Files", "file.core.windows.net");
    ("Storage Blobs", "blob.core.windows.net");
    ("Storage Queues", "queue.core.windows.net");
    ("Storage Tables", "table.core.windows.net");
    ("App Management", "scm.azurewebsites.net");
    ("App Azure", "azurewebsites.net");
    ("App Web", "p.azurewebsites.net");
    ("CloudApp", "cloudapp.net");
    ("Key Vaults", "vault.azure.net");
    ("Azure CDN", "azureedge.net");
    ("Search Appliance", "search.windows.net");
    ("API Services", "azure-api.net");
    ("Hosted Domain", "onmicrosoft.com");
    ("Databases-Redis", "redis.cache.windows.net");
    ("Databases-CosmosDB", "documents.azure.com");
    ("Databases-MSSQL", "database.windows.net");
    ("Email", "mail.protection.outlook.com");
    ("SharePoint", "sharepoint.com") ].

(** The state of a worker: the shared [results] list and the request log. *)
Definition Worker (A : Type) : Type := M (list Bucket * list Request) A.

Definition results_append (b : Bucket) : Worker unit :=
  fun s => (Returned tt, (fst s ++ [b], snd s)).

(** Running a method on a bucket the worker holds; the bucket comes back
    when the method returns, an exception goes up. *)
Definition call {A} (b : Bucket) (m : Method A) : Worker Bucket :=
  fun s =>
    match m (b, snd s) with
    | (Returned _, (b', log)) => (Returned b', (fst s, log))
    | (Raised e, (_, log)) => (Raised e, (fst s, log))
    end.

(** One queue entry: [(srv_name, domain, name)]. *)
Definition Work : Type := string * string * string.

Section Workers.

Variable net : Network.
Variable lib : UrlLib.
Variable base_name : string.

Definition check_dns {X} (hostname : string) : M (X * list Request) bool :=
  send (DNS hostname) ;;
  ret (resolves net hostname).

(** [check_host(host)]: [None] is [False]. *)
Definition check_host {X} (host : string) : M (X * list Request) (option Response) :=
  send (HEAD ("http://" ++ host)%string) ;;
  match head_response net ("http://" ++ host)%string with
  | None => ret None
  | Some response =>
      if code_in (status_code response) [404]%Z then ret None
      else ret (Some response)
  end.

(** The queue [search_buckets] fills. *)
Definition search_buckets_queue (cloud_dict : list (string * string))
  (names : list string) : list Work :=
  flat_map (fun srv =>
              map (fun name => (fst srv, (name ++ "." ++ snd srv)%string, name)) names)
           cloud_dict.

(** The body of the [while] loop of [search_buckets_worker] for one queue
    entry (console output left out). *)
Definition search_buckets_item (cloud : string) (work : Work) : Worker unit :=
  let srv_name := fst (fst work) in
  let domain := snd (fst work) in
  let name := snd work in
  ok <- check_dns domain ;;
  if ok then
    response <- check_host domain ;;
    if (match response with Some _ => true | None => false end)
       || String.eqb cloud "azure" then
      b <- call (Bucket_init (PStr name) domain cloud srv_name)
                (process_status net base_name response) ;;
      results_append b
    else ret tt
  else ret tt.

(** [search_buckets_worker] draining the queue. *)
Fixpoint search_buckets_worker (cloud : string) (q : list Work) : Worker unit :=
  match q with
  | [] => ret tt
  | work :: rest =>
      search_buckets_item cloud work ;;
      search_buckets_worker cloud rest
  end.


(** *** The fingerprint worker *)

Definition has_header (response : Response) (h : string) : bool :=
  match headers_get (headers response) h with Some _ => true | None => false end.

(** The provider decided from the headers and the FQDN; [None] when the
    URL is dropped. *)
Definition fingerprint (url : string) (response : Response) : option string :=
  let fqdn := fqdn (tldextract_extract lib url) in
  if existsb (has_header response) ["x-amz-request-id"; "x-amz-id-2"]
     || existsb (fun n => Py.contains n fqdn) (map snd awsCloud) then Some "aws"
  else if existsb (has_header response)
            ["X-GUploader-UploadID"; "x-goog-metageneration"; "X-Cloud-Trace-Context"]
          || existsb (fun n => Py.contains n fqdn) (map snd googleCloud) then
    if Py.endswith ".google.com" (netloc (urlparse lib url)) then None
    else Some "google"
  else if existsb (has_header response) ["x-ms-request-id"]
          || existsb (fun n => Py.contains n fqdn) (map snd azureCloud) then Some "azure"
  else None.

Definition generic_base_domains : list string :=
  [ "amazonaws"; "amazon"; "google"; "googleapis"; "appspot"; "azure";
    "azureedge"; "windows" ].

(** The [name] that [what_cloud_worker] hands to [Bucket]. *)
Definition bucket_name (url : string) : PyName :=
  let domain_name := registered_domain_label (tldextract_extract lib url) in
  let u := urlparse lib url in
  let domain := netloc u in
  let srv := firstn 1 (skipn 1 (Py.split "/" (path u))) in
  if (3 <? List.length (Py.split "." domain))%nat then
    PStr (hd EmptyString (Py.split "." domain))
  else match srv with
       | [] => PStr domain_name
       | _ :: _ =>
           if mem domain_name generic_base_domains then PList srv
           else PStr domain_name
       end.

(** The body of the [while] loop of [what_cloud_worker] for one URL. *)
Definition what_cloud_item (url : string) : Worker unit :=
  send (HEAD url) ;;
  match head_response net url with
  | None => ret tt
  | Some response =>
      match fingerprint url response with
      | None => ret tt
      | Some cloud =>
          let srv_name := (Py.capitalize cloud ++ " Cloud")%string in
          b <- call (Bucket_init (bucket_name url) url cloud srv_name)
                    (process_status net base_name (Some response)) ;;
          results_append b
      end
  end.

End Workers.

(* ===================================================================== *)
(** * Concrete runs: networks, libraries and inputs used below            *)
(* ===================================================================== *)

(** A network on which nothing resolves and nothing answers. *)
Definition offline : Network := {|
  resolves := fun _ => false;
  head_response := fun _ => None;
  get_status_code := fun _ => None;
  get_json_permissions := fun _ => None;
  get_acl_document := fun _ => None
|}.

(** A file system holding one dictionary file with the single line [dev]. *)
Definition one_affix (file : string) : option (list string) :=
  if String.eqb file "permutations.txt" then Some ["dev"] else None.

(** The six names the loop adds for one affix, in the order it adds them. *)
Definition six_names (base_name affix : string) : list string :=
  [ (affix ++ "-" ++ base_name)%string;
    (affix ++ "." ++ base_name)%string;
    (affix ++ base_name)%string;
    (base_name ++ "-" ++ affix)%string;
    (base_name ++ "." ++ affix)%string;
    (base_name ++ affix)%string ].

(* ===================================================================== *)
(** * Specification vocabulary for methods                                *)
(* ===================================================================== *)

(** The bucket a method leaves behind, whether it returns or raises. *)
Definition final {A} (m : Method A) (b : Bucket) (log : list Request) : Bucket :=
  fst (snd (m (b, log))).

(** The requests on the log once a method is done. *)
Definition requests {A} (m : Method A) (b : Bucket) (log : list Request)
  : list Request :=
  snd (snd (m (b, log))).

(** [b'] is [b] after an ACL enumerator: identity fields untouched, the
    state kept or forced to [OPEN], the risk kept or forced to [HIGH], the
    details only appended to. *)
Definition escalated (b b' : Bucket) : Prop :=
  name b' = name b /\ domain b' = domain b /\ cloud b' = cloud b /\
  srv_name b' = srv_name b /\
  (state b' = state b \/ state b' = OPEN) /\
  (risk b' = risk b \/ risk b' = HIGH) /\
  exists extra, details b' = details b ++ extra.

(** [keeps R m]: the bucket after [m] is [R]-related to the bucket before. *)
Definition keeps {A} (R : Bucket -> Bucket -> Prop) (m : Method A) : Prop :=
  forall b log, R b (final m b log).

(** A method that only assigns to fields of [self]: it returns, and sends
    nothing. *)
Definition assigns_only {A} (m : Method A) : Prop :=
  forall b log, exists a b', m (b, log) = (Returned a, (b', log)).

(* ===================================================================== *)
(** * Concrete runs for the classifier                                    *)
(* ===================================================================== *)

Definition no_headers : CaseInsensitiveDict := headers_of [].

(** A HEAD of [http://acme.file.core.windows.net] answered by a 302 to a
    sign-in page, which answers 200. *)
Definition login_redirect : Response :=
  mkResponse 200 no_headers
    [ mkResponse 302 no_headers [] "http://acme.file.core.windows.net/" ]
    "https://login.microsoftonline.com/common/oauth2/authorize".

(** A network on which the share listing of that storage account is public. *)
Definition public_shares : Network := {|
  resolves := fun _ => true;
  head_response := fun _ => Some login_redirect;
  get_status_code := fun u =>
    if String.eqb u "https://acme.file.core.windows.net/?comp=list"
    then Some 200%Z else None;
  get_json_permissions := fun _ => None;
  get_acl_document := fun _ => None
|}.

Definition acme_files : Bucket :=
  Bucket_init (PStr "acme") "acme.file.core.windows.net" "azure" "Storage Files".

Definition acme_s3 : Bucket :=
  Bucket_init (PStr "acme") "acme.s3.amazonaws.com" "aws" "AWS Bucket".

(** A 200 answer with an XML body and no redirect. *)
Definition xml_listing : Response :=
  mkResponse 200 (headers_of [("Content-Type", "application/xml")]) []
    "http://acme.s3.amazonaws.com/".

(** A method that sends no request. *)
Definition silent {A} (m : Method A) : Prop :=
  forall b log, requests m b log = log.

(** The queue entry of the candidate [acme] on the S3 service. *)
Definition acme_on_s3 : Work := ("AWS Bucket", "acme.s3.amazonaws.com", "acme").

(* ===================================================================== *)
(** * Concrete runs for the crawler and the fingerprint worker            *)
(* ===================================================================== *)

(** [s.partition(sep)]: the text before the first [sep] and the text after
    it; [None] when [sep] does not occur. *)
Definition partition_at (sep s : string) : option (string * string) :=
  match String.index 0 sep s with
  | Some i =>
      Some (String.substring 0 i s,
            String.substring (i + String.length sep)
              (String.length s - (i + String.length sep)) s)
  | None => None
  end.

(** A [urlparse] for absolute URLs of the plain shape
    scheme://netloc/path?query (no fragment, no parameters), where it
    agrees with [urllib.parse.urlparse]. *)
Definition plain_urlparse (u : string) : ParseResult :=
  match partition_at "://" u with
  | None => {| scheme := ""; netloc := ""; path := u; query := "" |}
  | Some (sch, rest) =>
      let locpath := match partition_at "?" rest with
                     | Some (lp, _) => lp
                     | None => rest
                     end in
      let q := match partition_at "?" rest with
               | Some (_, q) => q
               | None => ""
               end in
      match partition_at "/" locpath with
      | Some (loc, p) =>
          {| scheme := sch; netloc := loc; path := String "/" p; query := q |}
      | None => {| scheme := sch; netloc := locpath; path := ""; query := q |}
      end
  end.

(** A [urljoin] for a base without a path and a reference that is either
    an absolute http URL or a bare relative name. *)
Definition plain_urljoin (base src : string) : string :=
  if Py.startswith "http" src then src else (base ++ "/" ++ src)%string.

(** A [tldextract.extract] for hosts under a one-label public suffix. *)
Definition plain_extract (u : string) : ExtractResult :=
  let host := netloc (plain_urlparse u) in
  let labels := Py.split "." host in
  {| registered_domain_label := hd "" (tl (rev labels)); fqdn := host |}.

Definition plain_lib : UrlLib := {|
  urlparse := plain_urlparse;
  urljoin := plain_urljoin;
  tldextract_extract := plain_extract
|}.

(** A set that hands its elements back in the reverse of their first
    insertion: one of the orders a hash table may produce. *)
Definition reversing_set : PySet := {|
  list_of_set := fun l => rev (nodup string_dec l);
  list_of_set_NoDup := fun l => NoDup_rev (NoDup_nodup string_dec l);
  list_of_set_In := fun l x =>
    iff_trans (iff_sym (in_rev (nodup string_dec l) x)) (nodup_In string_dec l x)
|}.

(** The node of a page [http://example.com/index.html] that links to the
    pages [a] and [b] of the same site and has been crawled with depth 0. *)
Definition two_links : Crawl.HiddenGems :=
  Crawl.mkHiddenGems "http://example.com/index.html" []
    [ ("js", []);
      ("links", ["http://example.com/a"; "http://example.com/b"]);
      ("styles", []); ("images", []); ("forms", []); ("cors", []) ]
    "http" "example.com" "http://example.com".

(** The same page whose two anchors are [href="about"] and
    [href="http://example.com/about"]. *)
Definition same_page_twice (pyset : PySet) : Crawl.HiddenGems :=
  let page :=
    Crawl.mkHiddenGems "http://example.com/index.html" [] []
      "http" "example.com" "http://example.com" in
  Crawl.mkHiddenGems "http://example.com/index.html" []
    [ ("js", []);
      ("links", Crawl.extract_links plain_lib pyset page
                  [Some "about"; Some "http://example.com/about"]);
      ("styles", []); ("images", []); ("forms", []); ("cors", []) ]
    "http" "example.com" "http://example.com".

(** Response headers that allow two origins. *)
Definition two_origins : CaseInsensitiveDict :=
  headers_of [ ("Content-Type", "text/html");
               ("Access-Control-Allow-Origin", "https://a.example,https://b.example") ].

(* ===================================================================== *)
(** * Vocabulary and concrete runs for the AWS grant loop                 *)
(* ===================================================================== *)

(** The [Permission] values the second [if] chain of the loop lists. *)
Definition listed (p : string) : bool :=
  mem p ["READ"; "READ_ACP"; "WRITE"; "WRITE_ACL"; "FULL_CONTROL"].

(** The symbol the chain assigns for a permission, [None] when it assigns
    nothing. *)
Definition permission_letter (p : string) : option string :=
  if mem p ["READ"; "READ_ACP"] then Some "R"
  else if mem p ["WRITE"; "WRITE_ACL"] then Some "W"
  else if mem p ["FULL_CONTROL"] then Some "F"
  else None.

(** The permissions for which the chain also sets the risk to HIGH. *)
Definition raises_risk (p : string) : bool :=
  mem p ["WRITE"; "WRITE_ACL"; "FULL_CONTROL"].

Definition with_permission (g : Grant) (p : string) : Grant :=
  {| Grantee := Grantee g; Permission := p |}.

(** A grant list in which every grant whose permission is not listed
    carries the permission of the closest listed grant before it; [prev]
    is that permission at the start of the list. *)
Fixpoint carry (prev : string) (grants : list Grant) : list Grant :=
  match grants with
  | [] => []
  | g :: rest =>
      if listed (Permission g) then g :: carry (Permission g) rest
      else with_permission g prev :: carry prev rest
  end.

(** The locals when the loop starts. *)
Definition loop_entry : Locals := {| rights := []; symb := None |}.

(** A grant to the canonical user with the given display name. *)
Definition grant_to (display_name permission : string) : Grant :=
  {| Grantee := [ ("@xsi:type", "CanonicalUser");
                  ("ID", "75aa57f09aa0c8caeab4f8c24e99d10f8e7faeebf76c078efc7c6caea54ba06a");
                  ("DisplayName", display_name) ];
     Permission := permission |}.

(** A network whose every [?acl] request is answered by this grant list. *)
Definition acl_answer (grants : list Grant) : Network := {|
  resolves := fun _ => true;
  head_response := fun _ => None;
  get_status_code := fun _ => None;
  get_json_permissions := fun _ => None;
  get_acl_document := fun _ =>
    Some (AccessControlPolicy (Some (ListElement (Some (ManyGrants grants)))))
|}.

(** The bucket [acme] on S3 once the classifier has found it OPEN. *)
Definition acme_open : Bucket :=
  details_append "LIST" (set_risk HIGH (set_state OPEN acme_s3)).

(** An object URL on Google Cloud Storage, and the answer to its HEAD. *)
Definition object_url : string := "https://storage.googleapis.com/mybucket/file.txt".

Definition object_response : Response := mkResponse 200 no_headers [] object_url.

(** The queue entry of the candidate [acme] on Azure file storage. *)
Definition acme_on_files : Work :=
  ("Storage Files", "acme.file.core.windows.net", "acme").

(** A network on which every name resolves and no host answers. *)
Definition dns_only : Network := {|
  resolves := fun _ => true;
  head_response := fun _ => None;
  get_status_code := fun _ => None;
  get_json_permissions := fun _ => None;
  get_acl_document := fun _ => None
|}.

(* ===================================================================== *)
(** * The accumulation of [_aws_acl], stated on its own                   *)
(* ===================================================================== *)

(** The elements of a list, each once, in the order of first appearance. *)
Fixpoint first_seen (l : list string) : list string :=
  match l with
  | [] => []
  | x :: rest => x :: filter (fun y => negb (String.eqb y x)) (first_seen rest)
  end.

Definition concat_all (l : list string) : string :=
  fold_right String.append EmptyString l.

(** The symbols granted to [user], in the order the grants are met. *)
Definition symbols_granted (user : string) (entries : list (string * string))
  : list string :=
  map snd (filter (fun e => String.eqb (fst e) user) entries).

(** Following the specification: the symbols are accumulated per grantee,
    without repetition, and there is one entry per grantee.  [entries] are
    the (grantee, symbol) pairs of the grants, in document order. *)
Definition spec_rights (entries : list (string * string)) : Rights :=
  map (fun user => (user, concat_all (first_seen (symbols_granted user entries))))
      (first_seen (map fst entries)).

(** The third [if] chain of the loop body as a function on [rights]. *)
Definition add_right (r : Rights) (entry : string * string) : Rights :=
  match dict_get (fst entry) r with
  | None => r ++ [entry]
  | Some had =>
      if negb (Py.contains (snd entry) had)
      then dict_set (fst entry) (had ++ snd entry)%string r
      else r
  end.

(** A grant whose grantee key is [fst entry] and whose permission is
    listed with symbol [snd entry]. *)
Definition grant_entry (g : Grant) (entry : string * string) : Prop :=
  (forall s, grantee_user g s = (Returned (fst entry), s)) /\
  permission_letter (Permission g) = Some (snd entry).

(** A one-character string. *)
Definition single (c : string) : Prop := exists a, c = String a EmptyString.

(* ===================================================================== *)
(** * Further concrete runs                                               *)
(* ===================================================================== *)

(** A 403 answer without redirect, a 503 and a 418, all for the S3 host. *)
Definition forbidden : Response :=
  mkResponse 403 no_headers [] "http://acme.s3.amazonaws.com/".

Definition unavailable : Response :=
  mkResponse 503 no_headers [] "http://acme.s3.amazonaws.com/".

Definition teapot : Response :=
  mkResponse 418 no_headers [] "http://acme.s3.amazonaws.com/".

(** A candidate other than the seed name. *)
Definition acme_dev_s3 : Bucket :=
  Bucket_init (PStr "acme-dev") "acme-dev.s3.amazonaws.com" "aws" "AWS Bucket".

(** A listing request that is answered, with status 200. *)
Definition answers_200 (net : Network) (url : string) : bool :=
  match get_status_code net url with
  | Some code => (code =? 200)%Z
  | None => false
  end.

(** The container names [_azure_acl] tries for a bucket named [n]. *)
Definition containers_tried (base_name n : string) : list string :=
  COMMON_CONTAINERS ++ [n] ++ (if String.eqb n base_name then [] else [base_name]).

(** The symbols [_google_acl] writes for a permission list. *)
Definition google_symbols (permissions : list string) : string :=
  ((if mem "storage.objects.list" permissions then "L" else "") ++
   (if mem "storage.objects.get" permissions then "R" else "") ++
   (if mem "storage.objects.create" permissions
       || mem "storage.objects.delete" permissions
       || mem "storage.objects.update" permissions then "W" else "") ++
   (if mem "storage.buckets.setIamPolicy" permissions then "V" else ""))%string.

(** The permissions for which [_google_acl] raises the risk. *)
Definition google_writable (permissions : list string) : bool :=
  mem "storage.objects.create" permissions
  || mem "storage.objects.delete" permissions
  || mem "storage.objects.update" permissions
  || mem "storage.buckets.setIamPolicy" permissions.

(** The bucket [acme] on Google Storage, found OPEN. *)
Definition acme_gcs_open : Bucket :=
  set_risk MEDIUM (set_state OPEN
    (Bucket_init (PStr "acme") "acme.storage.googleapis.com" "google" "Google Storage")).

(** A network whose IAM test answers with the given permissions. *)
Definition iam_answer (permissions : list string) : Network := {|
  resolves := fun _ => true;
  head_response := fun _ => None;
  get_status_code := fun _ => None;
  get_json_permissions := fun _ => Some (Some permissions);
  get_acl_document := fun _ => None
|}.

(** The storage account [acme] on Azure blob storage. *)
Definition acme_blobs : Bucket :=
  Bucket_init (PStr "acme") "acme.blob.core.windows.net" "azure" "Storage Blobs".

(** A network on which the containers [backup] and [logs] of that account
    can be listed. *)
Definition public_containers : Network := {|
  resolves := fun _ => true;
  head_response := fun _ => None;
  get_status_code := fun u =>
    if String.eqb u "https://acme.blob.core.windows.net/backup?restype=container&comp=list"
       || String.eqb u "https://acme.blob.core.windows.net/logs?restype=container&comp=list"
    then Some 200%Z else Some 404%Z;
  get_json_permissions := fun _ => None;
  get_acl_document := fun _ => None
|}.

(** [b] is what the brute-force worker can add for the queue entry [w] of
    the provider [provider]: the entry's name, domain and service label,
    a hostname that resolved, and a state that is OPEN, PRIVATE or UNKNOWN,
    or DOMAIN for azure alone. *)
Definition found_by (net : Network) (provider : string) (w : Work) (b : Bucket)
  : Prop :=
  name b = PStr (snd w) /\
  domain b = snd (fst w) /\
  srv_name b = fst (fst w) /\
  cloud b = provider /\
  resolves net (snd (fst w)) = true /\
  (state b = OPEN \/ state b = PRIVATE \/ state b = UNKNOWN \/
   (provider = "azure" /\ state b = DOMAIN)).

(** [srv_len] of the main block, and the number of tries it prints. *)
Definition srv_len : nat :=
  List.length azureCloud + List.length googleCloud + List.length awsCloud.

Definition tries (permutations : list string) : nat :=
  List.length permutations * srv_len.

(** A network on which every name resolves and every host answers 200 with
    an XML listing, while the [?acl] request times out. *)
Definition acl_timeout : Network := {|
  resolves := fun _ => true;
  head_response := fun _ => Some xml_listing;
  get_status_code := fun _ => None;
  get_json_permissions := fun _ => None;
  get_acl_document := fun _ => None
|}.

(** A network on which every name resolves and every host answers 404. *)
Definition all_not_found : Network := {|
  resolves := fun _ => true;
  head_response := fun _ =>
    Some (mkResponse 404 no_headers [] "http://acme.s3.amazonaws.com/");
  get_status_code := fun _ => None;
  get_json_permissions := fun _ => None;
  get_acl_document := fun _ => None
|}.

(** A Google sign-in page: Google's trace header, a host under google.com,
    served through a front end that also sets an Azure request id. *)
Definition google_page_url : string := "https://accounts.google.com/signin".

Definition google_page : Response :=
  mkResponse 200
    (headers_of [("X-Cloud-Trace-Context", "105445aa7843bc8bf206b120001000");
                 ("x-ms-request-id", "0e6f0a2c")])
    [] google_page_url.

(** A method that only appends to the request log. *)
Definition log_grows {A} (m : Method A) : Prop :=
  forall b log, exists new, requests m b log = log ++ new.

(* ===================================================================== *)
(** * class HiddenGems: the crawl itself                                  *)
(* ===================================================================== *)

(** One tag of a parsed page: its attributes and its text. *)
Record Tag := {
  tag_attrs : list (string * string);
  tag_text : string
}.

(** The two libraries the extraction leans on.  [find_all source name] is
    [BeautifulSoup(source, 'html.parser').find_all(name)];
    [findall_quoted] gives, for each match of the quoted-file-name pattern
    of [extract_javascript] and [extract_styles], its second group;
    [findall_http] gives the matches of the pattern of
    [extract_raw_links].  Like [urlparse] and [urljoin] they are taken to
    return on every input: a text on which the library itself raises is
    outside the model. *)
Record HtmlLib := {
  find_all : string -> string -> list Tag;
  findall_quoted : string -> list string;
  findall_http : string -> list string
}.

(** What [requests.get(url)] returns to the crawler. *)
Record Page := {
  page_headers : CaseInsensitiveDict;
  page_text : string
}.

(** The web as the crawler sees it; [None] is a request that raises. *)
Definition Web : Type := string -> option Page.

Module Gems.

Import Crawl.

Definition skip_extensions : list string :=
  [ "exe"; "bin"; "pdf"; "zip"; "jpg"; "png"; "svg"; "avi"; "mp3"; "mp4";
    "gz"; "tar"; "rar"; "7z"; "ttf"; "otf"; "woff"; "woff2" ].

(** The state of a crawl: the class attribute [known_urls], shared by all
    nodes, and the request log. *)
Definition Crawling (A : Type) : Type := M (list string * list Request) A.

Definition known_urls : Crawling (list string) :=
  fun s => (Returned (fst s), s).

(** [self.known_urls.append(url)] *)
Definition known_urls_append (url : string) : Crawling unit :=
  fun s => (Returned tt, (fst s ++ [url], snd s)).

Definition lift {A} (o : outcome A) : Crawling A := fun s => (o, s).

Section Methods.

Variable lib : UrlLib.
Variable pyset : PySet.
Variable html : HtmlLib.
Variable web : Web.

(** [s.get(attr)] on a tag, kept when truthy. *)
Definition tag_get (attr : string) (s : Tag) : option string :=
  match dict_get attr (tag_attrs s) with
  | Some v => if Py.truthy v then Some v else None
  | None => None
  end.

(** [[normalize_url(s.get(attr), full_query) for s in find_all(name) if s.get(attr)]] *)
Definition attribute_urls (self : HiddenGems) (source name attr : string)
  (full_query : bool) : list string :=
  flat_map (fun s => match tag_get attr s with
                     | Some v => [normalize_url lib self v full_query]
                     | None => []
                     end)
           (find_all html source name).

(** The texts of the tags without the attribute, and the URLs quoted in
    them. *)
Definition embedded_urls (self : HiddenGems) (source name attr : string)
  : list string :=
  flat_map (fun s => match tag_get attr s with
                     | Some _ => []
                     | None => map (fun u => normalize_url lib self u false)
                                   (findall_quoted html (tag_text s))
                     end)
           (find_all html source name).

Definition extract_javascript (self : HiddenGems) (source_code : string)
  : list string :=
  list_of_set pyset
    (attribute_urls self source_code "script" "src" false ++
     embedded_urls self source_code "script" "src").

Definition extract_links (self : HiddenGems) (source_code : string) : list string :=
  list_of_set pyset (attribute_urls self source_code "a" "href" true).

Definition extract_images (self : HiddenGems) (source_code : string) : list string :=
  list_of_set pyset (attribute_urls self source_code "img" "src" false).

Definition extract_raw_links (source_code : string) : list string :=
  list_of_set pyset (findall_http html source_code).

Definition extract_styles (self : HiddenGems) (source_code : string) : list string :=
  list_of_set pyset
    (attribute_urls self source_code "link" "href" false ++
     embedded_urls self source_code "link" "href").

Definition extract_forms (self : HiddenGems) (source_code : string) : list string :=
  list_of_set pyset (attribute_urls self source_code "form" "action" true).

(** [url_extension(url)]: [None] when the last path segment has no dot. *)
Definition url_extension (self : HiddenGems) (url : string) : option string :=
  let file := Py.last_field (Py.split "/" (normalize_url lib self url false)) in
  let parts := Py.split "." file in
  if (List.length parts =? 1)%nat then None
  else Some (Py.lower (Py.last_field parts)).

(** [self.url_extension(url) in self.skip_extensions] *)
Definition skipped (self : HiddenGems) (url : string) : bool :=
  match url_extension self url with
  | Some ext => mem ext skip_extensions
  | None => false
  end.

(** The loop of [crawl_raw_urls]; [result] is the list built so far. *)
Fixpoint crawl_raw_urls_loop (self : HiddenGems) (urls result : list string)
  : Crawling (list string) :=
  match urls with
  | [] => ret result
  | url :: rest =>
      known <- known_urls ;;
      if mem url known then crawl_raw_urls_loop self rest result
      else
        known_urls_append url ;;
        if skipped self url then crawl_raw_urls_loop self rest result
        else
          send (GET url) ;;
          match web url with
          | Some r =>
              crawl_raw_urls_loop self rest (result ++ extract_raw_links (page_text r))
          | None => crawl_raw_urls_loop self rest result
          end
  end.

Definition crawl_raw_urls (self : HiddenGems) (urls : list string)
  : Crawling (list string) :=
  crawl_raw_urls_loop self urls [].

(** The [for child in childs] loop of [crawl]; [init] builds a node. *)
Fixpoint crawl_children (init : string -> Crawling HiddenGems)
  (childs_urls : list string) (childs : list HiddenGems)
  : Crawling (list HiddenGems) :=
  match childs_urls with
  | [] => ret childs
  | child :: rest =>
      known <- known_urls ;;
      if mem child known then crawl_children init rest childs
      else
        node <- init child ;;
        crawl_children init rest (childs ++ [node])
  end.

(** The node of [url] with the given [urls] and [childs]; the other
    attributes are those [__init__] sets. *)
Definition node_of (url : string) (urls : list (string * list string))
  (childs : list HiddenGems) : HiddenGems :=
  let u := urlparse lib url in
  mkHiddenGems url childs urls (urllib.scheme u) (netloc u) (get_base_url lib url).

(** [__init__] followed by [crawl]; [init] is the constructor used for the
    children, [None] when the depth is spent. *)
Definition crawl (init : option (string -> Crawling HiddenGems))
  (url : string) (active_crawl : bool) : Crawling HiddenGems :=
  let self := node_of url [] [] in
  known_urls_append url ;;
  send (GET url) ;;
  match web url with
  | None => ret self
  | Some r =>
      match headers_get (page_headers r) "Content-Type" with
      | None => ret self
      | Some content_type =>
          if negb (Py.contains "text/html" content_type) then ret self
          else
            let js := extract_javascript self (page_text r) in
            let links := extract_links self (page_text r) in
            let styles := extract_styles self (page_text r) in
            let images := extract_images self (page_text r) in
            let forms := extract_forms self (page_text r) in
            cors <- lift (extract_cors (page_headers r)) ;;
            let urls :=
              [ ("js", js); ("links", links); ("styles", styles);
                ("images", images); ("forms", forms); ("cors", cors) ] in
            urls <-
              (if active_crawl then
                 js_pluss <- crawl_raw_urls self js ;;
                 styles_pluss <- crawl_raw_urls self styles ;;
                 let urls :=
                   urls ++ [("js-pluss", js_pluss); ("styles-pluss", styles_pluss)] in
                 let files :=
                   filter (fun x => Py.endswith ".json" x || Py.endswith ".xml" x)
                          (list_urls lib pyset (node_of url urls []) false false) in
                 files_found <- crawl_raw_urls self files ;;
                 ret (urls ++ [("files", files_found)])
               else ret urls) ;;
            match init with
            | None => ret (node_of url urls [])
            | Some init =>
                let childs := filter_scope lib self (list_of_set pyset (links ++ forms)) in
                let childs := filter (fun x => negb (skipped self x)) childs in
                childs <- crawl_children init childs [] ;;
                ret (node_of url urls childs)
            end
      end
  end.

(** [HiddenGems(url, deep, active_crawl)]; [deep] counts the levels still
    allowed below this node (a depth that is not positive acts as 0). *)
Fixpoint HiddenGems_init (deep : nat) (active_crawl : bool) (url : string)
  : Crawling HiddenGems :=
  match deep with
  | O => crawl None url active_crawl
  | S deeper => crawl (Some (HiddenGems_init deeper active_crawl)) url active_crawl
  end.

Definition list_out_urls (self : HiddenGems) (full_query : bool) : list string :=
  filter (fun x => negb (String.eqb (domain self) (netloc (urlparse lib x))))
         (list_urls lib pyset self false full_query).

Definition list_dirs (self : HiddenGems) (scope : bool) : list string :=
  list_of_set pyset (map (get_base_url lib) (list_urls lib pyset self scope false)).

Definition list_out_dirs (self : HiddenGems) : list string :=
  list_of_set pyset (map (get_base_url lib) (list_out_urls self false)).

Definition list_domains (self : HiddenGems) : list string :=
  list_of_set pyset
    (map (fun x => netloc (urlparse lib x)) (list_urls lib pyset self false false)).

End Methods.

(** All nodes of a crawl tree, the root first. *)
Fixpoint nodes (self : HiddenGems) : list HiddenGems :=
  self :: flat_map nodes (childs self).

(** The number of levels below the root. *)
Fixpoint height (self : HiddenGems) : nat :=
  fold_right (fun child h => Nat.max (S (height child)) h) O (childs self).

End Gems.

(** The URLs of [urls] that are not in [known], each once, in the order
    of first appearance. *)
Definition fresh_urls (known urls : list string) : list string :=
  filter (fun u => negb (mem u known)) (first_seen urls).

(** The links [crawl_raw_urls] collects from the pages it fetched. *)
Definition raw_links_of (pyset : PySet) (html : HtmlLib) (web : Web)
  (fetched : list string) : list string :=
  flat_map (fun u => match web u with
                     | Some r => Gems.extract_raw_links pyset html (page_text r)
                     | None => []
                     end) fetched.

(** From [(known, log)] the step [m] adds only new URLs to [known_urls],
    each once, and requests only URLs it has added, each once. *)
Definition new_at {A} (m : Gems.Crawling A) (known : list string)
  (log : list Request) : Prop :=
  exists added fetched,
    snd (m (known, log)) = (known ++ added, log ++ map GET fetched) /\
    NoDup added /\
    (forall u, In u added -> ~ In u known) /\
    incl fetched added /\
    NoDup fetched.

(** The same for a step that starts by recording and requesting [url],
    whether [url] was known or not. *)
Definition root_at {A} (m : Gems.Crawling A) (url : string)
  (known : list string) (log : list Request) : Prop :=
  exists added fetched,
    snd (m (known, log)) = (known ++ url :: added, log ++ map GET (url :: fetched)) /\
    NoDup added /\
    (forall u, In u added -> ~ In u known /\ u <> url) /\
    incl fetched added /\
    NoDup fetched.

(** [m] returns, from every state, a value with the property [P]. *)
Definition yields {A} (P : A -> Prop) (m : Gems.Crawling A) : Prop :=
  forall s, exists a, fst (m s) = Returned a /\ P a.

(** What holds of the tree a crawl of [url] with [deep] levels builds:
    every node is on the host of [url], and the tree has at most [deep]
    levels below its root. *)
Definition in_scope (lib : UrlLib) (deep : nat) (url : string)
  (tree : Crawl.HiddenGems) : Prop :=
  Crawl.url tree = url /\
  Crawl.domain tree = netloc (urlparse lib url) /\
  Gems.height tree <= deep /\
  Forall (fun n => Crawl.domain n = netloc (urlparse lib (Crawl.url n)) /\
                   Crawl.domain n = Crawl.domain tree)
         (Gems.nodes tree).

(** Whether the request for [url] answers with a [Content-Type] that
    contains [text/html]. *)
Definition answers_html (web : Web) (url : string) : bool :=
  match web url with
  | Some r =>
      match headers_get (page_headers r) "Content-Type" with
      | Some content_type => Py.contains "text/html" content_type
      | None => false
      end
  | None => false
  end.

(** A parser that finds nothing, and a web where every request raises. *)
Definition no_tags : HtmlLib := {|
  find_all := fun _ _ => [];
  findall_quoted := fun _ => [];
  findall_http := fun _ => []
|}.

Definition unreachable : Web := fun _ => None.
(* ===================================================================== *)
(** * Permutation generator: results                                      *)
(* ===================================================================== *)

Lemma append_empty_r (s : string) : (s ++ "")%string = s.
Proof.
  induction s as [|c s IH]; simpl; [reflexivity | now rewrite IH].
Qed.

Lemma string_append_assoc (s t u : string) :
  ((s ++ t) ++ u)%string = (s ++ t ++ u)%string.
Proof.
  induction s as [|c s IH]; simpl; [reflexivity | now rewrite IH].
Qed.

Lemma format_rules (a b : string) :
  Py.comprehension (fun x => Py.format x [a; b]) rules =
  Some [ (a ++ "-" ++ b)%string; (a ++ "." ++ b)%string; (a ++ b)%string ].
Proof.
  unfold rules; simpl.
  now rewrite !append_empty_r.
Qed.

Lemma permutations_loop_spec (base_name : string) (lines p : list string) :
  permutations_loop base_name lines p =
  Some (p ++ flat_map (six_names base_name) lines).
Proof.
  revert p; induction lines as [|affix rest IH]; intros p.
  - simpl. now rewrite app_nil_r.
  - cbn [permutations_loop flat_map].
    rewrite !format_rules, IH.
    f_equal. unfold six_names. now rewrite <- !app_assoc.
Qed.

(** C2, as the claim states it, fails: for base [acme] and the single affix
    [dev] the generator does not return the list that starts with the
    base-first combinations. *)
Lemma generate_permutations_claimed_order_fails :
  generate_permutations one_affix "acme" "permutations.txt" <>
  Some ["acme"; "acme-dev"; "acme.dev"; "acmedev"; "dev-acme"; "dev.acme"; "devacme"].
Proof.
  vm_compute. discriminate.
Qed.

(** C2, amended: [generate_permutations] returns the base name followed, for
    each affix of the file in order, by the six combinations affix-base,
    affix.base, affixbase, base-affix, base.affix, baseaffix (the
    affix-first group comes first); for [acme] and the single affix [dev]
    that is acme, dev-acme, dev.acme, devacme, acme-dev, acme.dev, acmedev. *)
Theorem generate_permutations_order :
  (forall fs base_name dict_file,
      generate_permutations fs base_name dict_file =
      option_map
        (fun lines => base_name :: flat_map (six_names base_name) lines)
        (fs dict_file)) /\
  generate_permutations one_affix "acme" "permutations.txt" =
  Some ["acme"; "dev-acme"; "dev.acme"; "devacme"; "acme-dev"; "acme.dev"; "acmedev"].
Proof.
  split.
  - intros fs base_name dict_file. unfold generate_permutations.
    destruct (fs dict_file) as [lines|]; [|reflexivity].
    unfold generate_permutations_lines. now rewrite permutations_loop_spec.
  - reflexivity.
Qed.

(* ===================================================================== *)
(** * Reasoning about methods                                             *)
(* ===================================================================== *)

Lemma bind_returned {A B} (m : Method A) (k : A -> Method B) s a s' :
  m s = (Returned a, s') -> bind m k s = k a s'.
Proof. intros H; unfold bind; now rewrite H. Qed.

Lemma escalated_refl b : escalated b b.
Proof.
  unfold escalated. repeat split; auto. exists []. now rewrite app_nil_r.
Qed.

Lemma escalated_trans b1 b2 b3 :
  escalated b1 b2 -> escalated b2 b3 -> escalated b1 b3.
Proof.
  unfold escalated.
  intros (n1 & d1 & c1 & s1 & st1 & r1 & e1 & de1) (n2 & d2 & c2 & s2 & st2 & r2 & e2 & de2).
  repeat split; try congruence.
  - destruct st2 as [st2|st2]; [rewrite st2; exact st1 | now right].
  - destruct r2 as [r2|r2]; [rewrite r2; exact r1 | now right].
  - exists (e1 ++ e2). now rewrite de2, de1, app_assoc.
Qed.

Lemma keeps_ret {A} (a : A) : keeps escalated (ret a).
Proof. intros b log. apply escalated_refl. Qed.

Lemma keeps_raise {A} e : keeps escalated (@raise _ A e).
Proof. intros b log. apply escalated_refl. Qed.

Lemma keeps_send r : keeps escalated (send r).
Proof. intros b log. apply escalated_refl. Qed.

Lemma keeps_get_self : keeps escalated get_self.
Proof. intros b log. apply escalated_refl. Qed.

Lemma keeps_bind {A B} (m : Method A) (k : A -> Method B) :
  keeps escalated m -> (forall a, keeps escalated (k a)) ->
  keeps escalated (bind m k).
Proof.
  intros Hm Hk b log. specialize (Hm b log).
  unfold final, bind in *.
  destruct (m (b, log)) as [[a|e] [b1 log1]]; simpl in *; [|exact Hm].
  eapply escalated_trans; [exact Hm | apply (Hk a b1 log1)].
Qed.

Lemma keeps_update (f : Bucket -> Bucket) :
  (forall b, escalated b (f b)) -> keeps escalated (update f).
Proof. intros H b log. apply H. Qed.

Lemma escalated_set_risk_HIGH b : escalated b (set_risk HIGH b).
Proof.
  unfold escalated; simpl. repeat split; auto. exists []. now rewrite app_nil_r.
Qed.

Lemma escalated_set_state_OPEN b : escalated b (set_state OPEN b).
Proof.
  unfold escalated; simpl. repeat split; auto. exists []. now rewrite app_nil_r.
Qed.

Lemma escalated_details_append d b : escalated b (details_append d b).
Proof. unfold escalated; simpl. repeat split; auto. now exists [d]. Qed.

Lemma escalated_details_extend ds b : escalated b (details_extend ds b).
Proof. unfold escalated; simpl. repeat split; auto. now exists ds. Qed.

Lemma escalated_set_acl v b : escalated b (set_acl v b).
Proof.
  unfold escalated; simpl. repeat split; auto. exists []. now rewrite app_nil_r.
Qed.

Create HintDb keeps.

#[local] Hint Resolve keeps_ret keeps_raise keeps_send keeps_get_self
  escalated_set_risk_HIGH escalated_set_state_OPEN escalated_details_append
  escalated_details_extend escalated_set_acl : keeps.

(** Breaks a goal [keeps escalated m] down along the structure of [m]. *)
Ltac keeps_step :=
  match goal with
  | |- keeps escalated (bind _ _) => apply keeps_bind; [|intros ?]
  | |- keeps escalated (update _) => apply keeps_update; intros ?; auto with keeps
  | |- keeps escalated (when ?c _) => unfold when; destruct c
  | |- keeps escalated (if ?c then _ else _) => destruct c
  | |- keeps escalated (match ?x with _ => _ end) => destruct x
  | |- keeps escalated _ => solve [auto with keeps]
  end.

Lemma keeps_dict_item k d : keeps escalated (dict_item k d).
Proof. unfold dict_item. repeat keeps_step. Qed.

Lemma keeps_grantee_user g : keeps escalated (grantee_user g).
Proof.
  unfold grantee_user.
  repeat first [apply keeps_dict_item | keeps_step].
Qed.

Lemma keeps_permission_symbol g l : keeps escalated (permission_symbol g l).
Proof. unfold permission_symbol. repeat keeps_step. Qed.

Lemma keeps_record_right u l : keeps escalated (record_right u l).
Proof. unfold record_right, read_symb. repeat keeps_step. Qed.

Lemma keeps_grant_step g l : keeps escalated (grant_step g l).
Proof.
  unfold grant_step.
  apply keeps_bind; [apply keeps_grantee_user | intros u].
  apply keeps_bind; [apply keeps_permission_symbol | intros l'].
  apply keeps_record_right.
Qed.

Lemma keeps_grant_loop gs : forall l, keeps escalated (grant_loop gs l).
Proof.
  induction gs as [|g gs IH]; intros l; simpl.
  - apply keeps_ret.
  - apply keeps_bind; [apply keeps_grant_step | intros l'; apply IH].
Qed.

Section Enumerators_escalate.

Variable net : Network.
Variable base_name : string.

Lemma keeps_requests_get_status u : keeps escalated (requests_get_status net u).
Proof. unfold requests_get_status. repeat keeps_step. Qed.

Lemma keeps_probe_containers d cs :
  forall fs, keeps escalated (probe_containers net d cs fs).
Proof.
  induction cs as [|c cs IH]; intros fs; simpl.
  - apply keeps_ret.
  - apply keeps_bind; [apply keeps_requests_get_status | intros r].
    destruct r as [code|]; [destruct (code =? 200)%Z|]; apply IH.
Qed.

Lemma keeps_azure_acl : keeps escalated (_azure_acl net base_name).
Proof.
  unfold _azure_acl, azure_shares, azure_containers.
  repeat first [apply keeps_requests_get_status | apply keeps_probe_containers
               | keeps_step].
Qed.

Lemma keeps_google_acl : keeps escalated (_google_acl net).
Proof. unfold _google_acl. repeat keeps_step. Qed.

Lemma keeps_aws_acl : keeps escalated (_aws_acl net).
Proof.
  unfold _aws_acl. repeat first [apply keeps_grant_loop | keeps_step].
Qed.

Lemma keeps_get_rights : keeps escalated (get_rights net base_name).
Proof.
  unfold get_rights.
  repeat first [apply keeps_azure_acl | apply keeps_google_acl
               | apply keeps_aws_acl | keeps_step].
Qed.

End Enumerators_escalate.

(* ===================================================================== *)
(** * The classifier                                                      *)
(* ===================================================================== *)

Lemma assigns_only_bind {A B} (m : Method A) (k : A -> Method B) :
  assigns_only m -> (forall a, assigns_only (k a)) -> assigns_only (bind m k).
Proof.
  intros Hm Hk b log. destruct (Hm b log) as (a & b1 & E).
  destruct (Hk a b1 log) as (a' & b2 & E').
  exists a', b2. unfold bind. now rewrite E.
Qed.

Lemma assigns_only_update f : assigns_only (update f).
Proof. intros b log. now exists tt, (f b). Qed.

Lemma assigns_only_ret {A} (a : A) : assigns_only (ret a : Method A).
Proof. intros b log. now exists a, b. Qed.

Lemma assigns_only_get_self : assigns_only get_self.
Proof. intros b log. now exists b, b. Qed.

Ltac assigns_step :=
  match goal with
  | |- assigns_only (bind _ _) => apply assigns_only_bind; [|intros ?]
  | |- assigns_only (update _) => apply assigns_only_update
  | |- assigns_only (ret _) => apply assigns_only_ret
  | |- assigns_only get_self => apply assigns_only_get_self
  | |- assigns_only (when ?c _) => unfold when; destruct c
  | |- assigns_only (if ?c then _ else _) => destruct c
  | |- assigns_only (match ?x with _ => _ end) => destruct x
  end.

Lemma assigns_only_classify base_name response :
  assigns_only (classify base_name response).
Proof.
  unfold classify, seed_rule, status_rules, redirect_block.
  repeat assigns_step.
Qed.

(** [classify] returns, sends nothing, and leaves the bucket [final] names. *)
Lemma classify_run base_name response b log :
  classify base_name response (b, log) =
  (Returned tt, (final (classify base_name response) b log, log)).
Proof.
  unfold final.
  destruct (assigns_only_classify base_name response b log) as ([] & b' & E).
  now rewrite E.
Qed.

(** Unfolds the three blocks on a given start state and splits on every
    condition they test. *)
Ltac run_classify :=
  unfold final, classify, seed_rule, status_rules, redirect_block,
    bind, when, get_self, update, ret; cbn [fst snd];
  repeat match goal with
         | |- context [if ?c then _ else _] => destruct c eqn:?
         | |- context [match headers_get ?h ?k with _ => _ end] =>
             destruct (headers_get h k) eqn:?
         end; cbn [fst snd].

Lemma classify_cloud base_name response b log :
  cloud (final (classify base_name response) b log) = cloud b.
Proof. run_classify; reflexivity. Qed.



Lemma contains_nonempty needle hay :
  needle <> EmptyString -> Py.contains needle hay = true -> Py.truthy hay = true.
Proof.
  intros Hn H. destruct hay; [|reflexivity].
  destruct needle; [congruence | discriminate].
Qed.

Lemma classify_listable base_name response content_type b log :
  status_code response = 200%Z ->
  headers_get (headers response) "Content-Type" = Some content_type ->
  Py.contains "application/xml" content_type = true ->
  redirected response && auth_url response = false ->
  let b' := final (classify base_name response) b log in
  state b' = OPEN /\ risk b' = HIGH /\ In "LIST" (details b').
Proof.
  intros H200 Hct Hxml Hred.
  assert (Ht : Py.truthy content_type = true)
    by (apply (contains_nonempty "application/xml"); [discriminate | exact Hxml]).
  unfold final, classify, seed_rule, status_rules, redirect_block,
    bind, when, get_self, update, ret; cbn [fst snd].
  rewrite H200, Hct, Ht, Hxml. cbn [Z.eqb Pos.eqb andb].
  destruct (name_eqb (name b) base_name); cbn [fst snd];
    destruct (redirected response); cbn [fst snd];
    try (destruct (auth_url response); [discriminate|]); cbn;
    rewrite ?in_app_iff; cbn; auto 8.
Qed.

Lemma escalated_listable b b' :
  escalated b b' ->
  state b = OPEN /\ risk b = HIGH /\ In "LIST" (details b) ->
  state b' = OPEN /\ risk b' = HIGH /\ In "LIST" (details b').
Proof.
  intros (_ & _ & _ & _ & Hs & Hr & extra & Hd) (S & R & L).
  repeat split.
  - destruct Hs; congruence.
  - destruct Hr; congruence.
  - rewrite Hd, in_app_iff. now left.
Qed.

(** Whatever [get_rights] does, return or raise, it leaves the bucket's
    name, domain, provider and service label alone, keeps the state or
    forces it to OPEN, keeps the risk or forces it to HIGH, and only
    appends to the details. *)
Theorem get_rights_escalates net base_name b log :
  escalated b (final (get_rights net base_name) b log).
Proof. apply keeps_get_rights. Qed.

(** C4: a 200 answer whose Content-Type contains application/xml, with no
    redirect to a login or signin URL, leaves the bucket with state OPEN,
    risk HIGH and the detail LIST.  This holds of the bucket
    [process_status] leaves behind for every provider and whatever the ACL
    enumerator then does, return or raise. *)
Theorem process_status_listable net base_name response content_type b log :
  status_code response = 200%Z ->
  headers_get (headers response) "Content-Type" = Some content_type ->
  Py.contains "application/xml" content_type = true ->
  redirected response && auth_url response = false ->
  let b' := final (process_status net base_name (Some response)) b log in
  state b' = OPEN /\ risk b' = HIGH /\ In "LIST" (details b').
Proof.
  intros H200 Hct Hxml Hred.
  cbn zeta. unfold final, process_status.
  rewrite (bind_returned _ _ _ _ _ (classify_run base_name response b log)).
  eapply escalated_listable.
  - apply (keeps_get_rights net base_name).
  - cbn [fst]. exact (classify_listable base_name response content_type b log
                        H200 Hct Hxml Hred).
Qed.

Lemma process_status_listable_witness :
  let b' := final (process_status offline "acme" (Some xml_listing)) acme_s3 [] in
  state b' = OPEN /\ risk b' = HIGH /\ In "LIST" (details b').
Proof.
  apply (process_status_listable offline "acme" xml_listing "application/xml");
    reflexivity.
Defined.

Lemma get_rights_skipped net base_name b log :
  cloud b <> "azure" -> state b <> OPEN ->
  get_rights net base_name (b, log) = (Returned tt, (b, log)).
Proof.
  intros Hc Hs. unfold get_rights, bind, get_self; cbn [fst snd].
  apply String.eqb_neq in Hc. rewrite Hc.
  destruct (state b); try congruence; reflexivity.
Qed.




(* ===================================================================== *)
(** * The brute-force worker and DNS failures                             *)
(* ===================================================================== *)




(* ===================================================================== *)
(** * Dispatch of the ACL enumerators                                     *)
(* ===================================================================== *)

Lemma silent_bind {A B} (m : Method A) (k : A -> Method B) :
  silent m -> (forall a, silent (k a)) -> silent (bind m k).
Proof.
  intros Hm Hk b log. specialize (Hm b log).
  unfold requests, bind in *.
  destruct (m (b, log)) as [[a|e] [b1 log1]]; simpl in *; subst; auto.
  apply (Hk a b1 log).
Qed.

Lemma silent_ret {A} (a : A) : silent (ret a : Method A).
Proof. intros b log; reflexivity. Qed.

Lemma silent_raise {A} e : silent (raise e : Method A).
Proof. intros b log; reflexivity. Qed.

Lemma silent_update f : silent (update f).
Proof. intros b log; reflexivity. Qed.

Lemma silent_dict_item k d : silent (dict_item k d : Method string).
Proof. unfold dict_item. destruct (dict_get k d); [apply silent_ret | apply silent_raise]. Qed.

Ltac silent_step :=
  match goal with
  | |- silent (bind _ _) => apply silent_bind; [|intros ?]
  | |- silent (update _) => apply silent_update
  | |- silent (ret _) => apply silent_ret
  | |- silent (raise _) => apply silent_raise
  | |- silent (dict_item _ _) => apply silent_dict_item
  | |- silent (if ?c then _ else _) => destruct c
  | |- silent (match ?x with _ => _ end) => destruct x
  end.

Lemma silent_grant_step g l : silent (grant_step g l).
Proof.
  unfold grant_step, grantee_user, permission_symbol, record_right, read_symb.
  repeat silent_step.
Qed.

Lemma silent_grant_loop gs : forall l, silent (grant_loop gs l).
Proof.
  induction gs as [|g gs IH]; intros l; simpl.
  - apply silent_ret.
  - apply silent_bind; [apply silent_grant_step | intros l'; apply IH].
Qed.

Lemma google_acl_requests net b log :
  requests (_google_acl net) b log = log ++ [GET (google_api (name b))].
Proof.
  unfold requests, _google_acl, bind, get_self, send, update, ret, raise;
    cbn [fst snd].
  destruct (get_json_permissions net (google_api (name b))) as [[[|p ps]|]|];
    cbn [fst snd]; try reflexivity.
  repeat match goal with
         | |- context [if ?c then _ else _] => destruct c
         end; reflexivity.
Qed.

Lemma aws_acl_requests net b log :
  requests (_aws_acl net) b log = log ++ [GET (aws_api (name b))].
Proof.
  unfold requests, _aws_acl.
  unfold bind at 1, get_self; cbn [fst snd].
  unfold bind at 1, send; cbn [fst snd].
  destruct (get_acl_document net (aws_api (name b))) as [[|[[|[[g|gs]|]]|]]|];
    try reflexivity.
  unfold bind at 1, update; cbn [fst snd].
  pose proof (silent_grant_loop gs {| rights := []; symb := None |}
                (set_acl (AwsAcl (ManyGrants gs)) b)
                (log ++ [GET (aws_api (name b))])) as H.
  unfold requests in H. unfold bind.
  destruct (grant_loop gs _ _) as [[l'|e] [b1 log1]]; simpl in *; now subst.
Qed.

(** C9: [get_rights] dispatches on the provider.  For azure it is the Azure
    enumerator, whatever the state.  For google and for aws it is the
    provider's enumerator when the state is OPEN (the enumerator's request
    is then on the log) and nothing at all otherwise.  For generic nothing
    runs: the bucket and the log are as before. *)
Theorem get_rights_dispatch net base_name b log :
  (cloud b = "azure" ->
   get_rights net base_name (b, log) = _azure_acl net base_name (b, log)) /\
  (cloud b = "google" ->
   (state b = OPEN ->
    get_rights net base_name (b, log) = _google_acl net (b, log) /\
    requests (get_rights net base_name) b log = log ++ [GET (google_api (name b))]) /\
   (state b <> OPEN ->
    get_rights net base_name (b, log) = (Returned tt, (b, log)))) /\
  (cloud b = "aws" ->
   (state b = OPEN ->
    get_rights net base_name (b, log) = _aws_acl net (b, log) /\
    requests (get_rights net base_name) b log = log ++ [GET (aws_api (name b))]) /\
   (state b <> OPEN ->
    get_rights net base_name (b, log) = (Returned tt, (b, log)))) /\
  (cloud b = "generic" ->
   get_rights net base_name (b, log) = (Returned tt, (b, log))).
Proof.
  repeat split.
  - intros Hc. unfold get_rights, bind at 1, get_self; cbn [fst snd].
    now rewrite Hc.
  - unfold get_rights, bind at 1, get_self; cbn [fst snd].
    rewrite H, H0. reflexivity.
  - assert (E : get_rights net base_name (b, log) = _google_acl net (b, log)).
    { unfold get_rights, bind at 1, get_self; cbn [fst snd].
      rewrite H, H0. reflexivity. }
    unfold requests at 1. rewrite E. apply google_acl_requests.
  - intros Hs. apply get_rights_skipped; [rewrite H; discriminate | exact Hs].
  - unfold get_rights, bind at 1, get_self; cbn [fst snd].
    rewrite H, H0. reflexivity.
  - assert (E : get_rights net base_name (b, log) = _aws_acl net (b, log)).
    { unfold get_rights, bind at 1, get_self; cbn [fst snd].
      rewrite H, H0. reflexivity. }
    unfold requests at 1. rewrite E. apply aws_acl_requests.
  - intros Hs. apply get_rights_skipped; [rewrite H; discriminate | exact Hs].
  - intros Hc. unfold get_rights, bind at 1, get_self; cbn [fst snd].
    rewrite Hc. cbn. destruct (State_eqb (state b) OPEN); reflexivity.
Qed.

Lemma get_rights_dispatch_witness :
  get_rights offline "acme" (acme_open, []) = _aws_acl offline (acme_open, []) /\
  requests (get_rights offline "acme") acme_open [] =
    [] ++ [GET (aws_api (name acme_open))].
Proof.
  destruct (get_rights_dispatch offline "acme" acme_open []) as (_ & _ & Haws & _).
  apply (proj1 (Haws eq_refl)). reflexivity.
Defined.

(* ===================================================================== *)
(** * The crawler                                                         *)
(* ===================================================================== *)

Example plain_urlparse_example :
  plain_urlparse "https://storage.googleapis.com/mybucket/file.txt?x=1" =
  {| scheme := "https"; netloc := "storage.googleapis.com";
     path := "/mybucket/file.txt"; query := "x=1" |}.
Proof. reflexivity. Qed.

(** [hasattr] never finds a header name: none of the attribute names of the
    class is one. *)
Lemma hasattr_header_false (h : CaseInsensitiveDict) :
  hasattr h "Access-Control-Allow-Origin" = false.
Proof. reflexivity. Qed.

(** [extract_cors] returns the empty list for every header set. *)
Theorem extract_cors_always_empty (h : CaseInsensitiveDict) :
  Crawl.extract_cors h = Returned [].
Proof. unfold Crawl.extract_cors. now rewrite hasattr_header_false. Qed.

(** C7 at the failing input: the response carries an
    Access-Control-Allow-Origin header with two origins and no wildcard,
    the comma-split of its value is the two origins, and [extract_cors]
    returns the empty list. *)
Theorem extract_cors_drops_origins :
  headers_get two_origins "Access-Control-Allow-Origin" =
    Some "https://a.example,https://b.example" /\
  Py.split "," "https://a.example,https://b.example" =
    ["https://a.example"; "https://b.example"] /\
  Crawl.extract_cors two_origins = Returned [].
Proof. repeat split. Qed.

Lemma list_urls_no_repeat lib pyset self scope full_query :
  NoDup (Crawl.list_urls lib pyset self scope full_query).
Proof. destruct self; cbn. apply list_of_set_NoDup. Qed.

(** C5 at the failing input: a node with the two links [.../a] and [.../b],
    listed with a set that iterates in the reverse of insertion order,
    gives [.../b] before [.../a]: the list is not sorted. *)
Theorem list_urls_not_sorted :
  Crawl.list_urls plain_lib reversing_set two_links false false =
    ["http://example.com/b"; "http://example.com/a"] /\
  ~ Sorted (fun x y => String.leb x y = true)
      (Crawl.list_urls plain_lib reversing_set two_links false false).
Proof.
  split; [reflexivity|].
  intros H. vm_compute in H.
  inversion H as [|? ? _ Hhd]; subst.
  inversion Hhd as [|? ? Hle]; subst.
  vm_compute in Hle. discriminate.
Qed.

(* ===================================================================== *)
(** * The AWS grant loop                                                  *)
(* ===================================================================== *)

Lemma dict_item_pure k d :
  exists o : outcome string, forall s : Bucket * list Request, dict_item k d s = (o, s).
Proof.
  unfold dict_item. destruct (dict_get k d) as [v|].
  - now exists (Returned v).
  - now exists (Raised KeyError).
Qed.

(** The grantee key depends on the grant alone: [grantee_user] touches
    neither the bucket nor the log. *)
Lemma grantee_user_pure g :
  exists o : outcome string, forall s, grantee_user g s = (o, s).
Proof.
  unfold grantee_user.
  destruct (dict_item_pure "@xsi:type" (Grantee g)) as [[xsi|e] Hx].
  2:{ exists (Raised e). intros s. unfold bind. now rewrite Hx. }
  destruct (String.eqb xsi "CanonicalUser" && dict_has "DisplayName" (Grantee g)) eqn:E1.
  - destruct (dict_item_pure "DisplayName" (Grantee g)) as [o Ho].
    exists o. intros s. unfold bind. now rewrite Hx, E1, Ho.
  - destruct (String.eqb xsi "Group") eqn:E2.
    + destruct (dict_item_pure "URI" (Grantee g)) as [[uri|e] Ho].
      * exists (Returned (Py.last_field (Py.split "/" uri))). intros s.
        unfold bind. now rewrite Hx, E1, E2, Ho.
      * exists (Raised e). intros s. unfold bind. now rewrite Hx, E1, E2, Ho.
    + destruct (dict_item_pure "ID" (Grantee g)) as [[id|e] Ho].
      * exists (Returned (Py.take 8 id)). intros s.
        unfold bind. now rewrite Hx, E1, E2, Ho.
      * exists (Raised e). intros s. unfold bind. now rewrite Hx, E1, E2, Ho.
Qed.

Lemma grantee_user_never_unbound g s :
  fst (grantee_user g s) <> Raised UnboundLocalError.
Proof.
  unfold grantee_user, bind, dict_item, ret, raise.
  repeat match goal with
         | |- context [match dict_get ?k ?d with _ => _ end] => destruct (dict_get k d)
         | |- context [if ?c then _ else _] => destruct c
         end; cbn; discriminate.
Qed.

Lemma listed_letter p : listed p = true <-> permission_letter p <> None.
Proof.
  unfold listed, permission_letter, mem; cbn.
  destruct (String.eqb p "READ"), (String.eqb p "READ_ACP"),
    (String.eqb p "WRITE"), (String.eqb p "WRITE_ACL"),
    (String.eqb p "FULL_CONTROL"); cbn; split; congruence.
Qed.

Lemma raises_risk_listed p : raises_risk p = true -> listed p = true.
Proof.
  unfold listed, raises_risk, mem; cbn.
  destruct (String.eqb p "READ"), (String.eqb p "READ_ACP"),
    (String.eqb p "WRITE"), (String.eqb p "WRITE_ACL"),
    (String.eqb p "FULL_CONTROL"); cbn; congruence.
Qed.

(** What the second [if] chain does, in one equation. *)
Lemma permission_symbol_run g l b log :
  permission_symbol g l (b, log) =
  (Returned match permission_letter (Permission g) with
            | Some c => {| rights := rights l; symb := Some c |}
            | None => l
            end,
   (if raises_risk (Permission g) then set_risk HIGH b else b, log)).
Proof.
  unfold permission_symbol, permission_letter, raises_risk, mem; cbn.
  destruct (String.eqb (Permission g) "READ") eqn:E1; cbn.
  { apply String.eqb_eq in E1. rewrite E1. reflexivity. }
  destruct (String.eqb (Permission g) "READ_ACP") eqn:E2; cbn.
  { apply String.eqb_eq in E2. rewrite E2. reflexivity. }
  destruct (String.eqb (Permission g) "WRITE") eqn:E3; cbn.
  { reflexivity. }
  destruct (String.eqb (Permission g) "WRITE_ACL") eqn:E4; cbn.
  { reflexivity. }
  destruct (String.eqb (Permission g) "FULL_CONTROL") eqn:E5; cbn; reflexivity.
Qed.

Lemma record_right_bound u l c s :
  symb l = Some c ->
  exists r, record_right u l s = (Returned {| rights := r; symb := Some c |}, s).
Proof.
  intros H. unfold record_right, read_symb, bind, ret. rewrite H.
  destruct l as [r sy]; cbn in *; subst.
  destruct (dict_get u r) as [had|]; [destruct (negb (Py.contains c had))|];
    eexists; reflexivity.
Qed.

Lemma record_right_unbound u l s :
  symb l = None -> record_right u l s = (Raised UnboundLocalError, s).
Proof.
  intros H. unfold record_right, read_symb, bind, raise. rewrite H.
  destruct (dict_get u (rights l)); reflexivity.
Qed.

Lemma set_risk_HIGH_idem b : risk b = HIGH -> set_risk HIGH b = b.
Proof. destruct b; cbn; intros ->; reflexivity. Qed.

(** One turn of the loop, once the grantee key is known. *)
Lemma grant_step_raised g l s e :
  (forall s, grantee_user g s = (Raised e, s)) ->
  grant_step g l s = (Raised e, s).
Proof. intros Hu. unfold grant_step, bind. now rewrite Hu. Qed.

Lemma grant_step_returned g l b log u :
  (forall s, grantee_user g s = (Returned u, s)) ->
  grant_step g l (b, log) =
  record_right u
    match permission_letter (Permission g) with
    | Some c => {| rights := rights l; symb := Some c |}
    | None => l
    end
    (if raises_risk (Permission g) then set_risk HIGH b else b, log).
Proof.
  intros Hu. unfold grant_step, bind. now rewrite Hu, permission_symbol_run.
Qed.

Lemma unlisted_letter p : listed p = false -> permission_letter p = None.
Proof.
  intros H. destruct (permission_letter p) eqn:E; [|reflexivity].
  assert (listed p = true) by (apply listed_letter; congruence).
  congruence.
Qed.

Lemma unlisted_risk p : listed p = false -> raises_risk p = false.
Proof.
  intros H. destruct (raises_risk p) eqn:E; [|reflexivity].
  apply raises_risk_listed in E. congruence.
Qed.

(** One turn on a listed permission: if it returns, [symb] holds the letter
    of that permission and the risk is HIGH where the chain raises it. *)
Lemma grant_step_listed g l b log l' b' log' c :
  permission_letter (Permission g) = Some c ->
  grant_step g l (b, log) = (Returned l', (b', log')) ->
  symb l' = Some c /\ (raises_risk (Permission g) = true -> risk b' = HIGH).
Proof.
  intros Hc.
  destruct (grantee_user_pure g) as [[u|e] Hu].
  2:{ rewrite (grant_step_raised g l _ e Hu). discriminate. }
  rewrite (grant_step_returned g l b log u Hu), Hc.
  destruct (record_right_bound u {| rights := rights l; symb := Some c |} c
              (if raises_risk (Permission g) then set_risk HIGH b else b, log)
              eq_refl) as [r Hr].
  rewrite Hr. intros E; inversion E; subst; cbn. split; [reflexivity|].
  intros ->. reflexivity.
Qed.

(** One turn on an unlisted permission with [symb] bound to [c] runs as the
    turn for the same grantee with any permission whose letter is [c]. *)
Lemma grant_step_stale g prev l b log c :
  listed (Permission g) = false ->
  permission_letter prev = Some c ->
  symb l = Some c ->
  (raises_risk prev = true -> risk b = HIGH) ->
  grant_step g l (b, log) = grant_step (with_permission g prev) l (b, log) /\
  forall l' b' log',
    grant_step g l (b, log) = (Returned l', (b', log')) ->
    symb l' = Some c /\ risk b' = risk b.
Proof.
  intros Hun Hc Hl Hrisk.
  pose proof (unlisted_letter _ Hun) as Hnone.
  pose proof (unlisted_risk _ Hun) as Hnr.
  destruct (grantee_user_pure g) as [[u|e] Hu].
  2:{ rewrite (grant_step_raised g l _ e Hu).
      rewrite (grant_step_raised (with_permission g prev) l _ e Hu).
      split; [reflexivity | intros; discriminate]. }
  rewrite (grant_step_returned g l b log u Hu).
  rewrite (grant_step_returned (with_permission g prev) l b log u Hu).
  cbn [with_permission Permission].
  rewrite Hnone, Hnr, Hc.
  assert (Hb : (if raises_risk prev then set_risk HIGH b else b) = b).
  { destruct (raises_risk prev); [apply set_risk_HIGH_idem; auto | reflexivity]. }
  assert (Hl' : {| rights := rights l; symb := Some c |} = l).
  { destruct l; cbn in *; now subst. }
  rewrite Hb, Hl'. split; [reflexivity|].
  destruct (record_right_bound u l c (b, log) Hl) as [r Hr]. rewrite Hr.
  intros l' b' log' E; inversion E; subst; cbn. auto.
Qed.

Lemma carry_invariant gs :
  forall prev c l b log,
    permission_letter prev = Some c ->
    symb l = Some c ->
    (raises_risk prev = true -> risk b = HIGH) ->
    grant_loop gs l (b, log) = grant_loop (carry prev gs) l (b, log).
Proof.
  induction gs as [|g gs IH]; intros prev c l b log Hc Hl Hrisk; [reflexivity|].
  cbn [carry]. destruct (listed (Permission g)) eqn:Hg; cbn [grant_loop].
  - unfold bind.
    destruct (grant_step g l (b, log)) as [[l'|e] [b' log']] eqn:E; [|reflexivity].
    destruct (permission_letter (Permission g)) as [c'|] eqn:Ec.
    2:{ apply listed_letter in Hg. congruence. }
    destruct (grant_step_listed g l b log l' b' log' c' Ec E) as [Hs Hr].
    now apply (IH (Permission g) c').
  - destruct (grant_step_stale g prev l b log c Hg Hc Hl Hrisk) as [Heq Hpost].
    unfold bind. rewrite <- Heq.
    destruct (grant_step g l (b, log)) as [[l'|e] [b' log']] eqn:E; [|reflexivity].
    destruct (Hpost l' b' log' eq_refl) as [Hs Hr].
    apply (IH prev c); auto. intros H. rewrite Hr. auto.
Qed.

Lemma grant_loop_listed_bound gs :
  forall l s,
    Forall (fun g => listed (Permission g) = true) gs ->
    fst (grant_loop gs l s) <> Raised UnboundLocalError.
Proof.
  induction gs as [|g gs IH]; intros l [b log] HF; cbn [grant_loop].
  - cbn. discriminate.
  - inversion HF as [|? ? Hg HF']; subst.
    unfold bind at 1.
    destruct (grant_step g l (b, log)) as [[l'|e] [b' log']] eqn:E.
    + now apply IH.
    + cbn. intros He; inversion He; subst.
      revert E.
      destruct (grantee_user_pure g) as [[u|e] Hu].
      * rewrite (grant_step_returned g l b log u Hu).
        destruct (permission_letter (Permission g)) as [c|] eqn:Ec.
        2:{ apply listed_letter in Hg. congruence. }
        destruct (record_right_bound u {| rights := rights l; symb := Some c |} c
                    (if raises_risk (Permission g) then set_risk HIGH b else b, log)
                    eq_refl) as [r Hr].
        rewrite Hr. discriminate.
      * rewrite (grant_step_raised g l _ e Hu).
        pose proof (grantee_user_never_unbound g (b, log)) as Hn.
        rewrite Hu in Hn. cbn in Hn.
        intros E; inversion E; subst. now apply Hn.
Qed.

Lemma grant_loop_first_unlisted g rest b log :
  listed (Permission g) = false ->
  (exists e, grant_loop (g :: rest) loop_entry (b, log) = (Raised e, (b, log))) /\
  (forall u, grantee_user g (b, log) = (Returned u, (b, log)) ->
             grant_loop (g :: rest) loop_entry (b, log) =
             (Raised UnboundLocalError, (b, log))).
Proof.
  intros Hun.
  pose proof (unlisted_letter _ Hun) as Hnone.
  pose proof (unlisted_risk _ Hun) as Hnr.
  assert (Hstep : forall o s,
             grant_step g loop_entry (b, log) = (Raised o, s) ->
             grant_loop (g :: rest) loop_entry (b, log) = (Raised o, s)).
  { intros o s E. cbn [grant_loop]. unfold bind. now rewrite E. }
  destruct (grantee_user_pure g) as [[u|e] Hu].
  - assert (E : grant_step g loop_entry (b, log) =
                (Raised UnboundLocalError, (b, log))).
    { rewrite (grant_step_returned g loop_entry b log u Hu), Hnone, Hnr.
      now apply record_right_unbound. }
    apply Hstep in E.
    split; [eexists; exact E | intros; exact E].
  - pose proof (Hstep _ _ (grant_step_raised g loop_entry (b, log) e Hu)) as E.
    split; [eexists; exact E|].
    intros u H. rewrite Hu in H. discriminate.
Qed.

(** C10: the loop of [_aws_acl] and the five listed permissions.  (1) When
    every grant carries a listed permission, [symb] is bound whenever it is
    read: the loop never raises UnboundLocalError.  (2) When the first
    grant carries any other permission the loop raises on that grant, with
    the bucket and the log untouched and nothing recorded; the exception is
    UnboundLocalError whenever the grantee key can be derived.  (3) When a
    later grant does, the loop runs exactly as if that grant carried the
    permission of the closest listed grant before it: the stale symbol goes
    to the later grant's grantee.  (4) So READ for alice followed by
    WRITE_ACP for bob reports R for bob. *)
Theorem aws_acl_symbol_precondition :
  (forall gs l s,
      Forall (fun g => listed (Permission g) = true) gs ->
      fst (grant_loop gs l s) <> Raised UnboundLocalError) /\
  (forall g rest b log,
      listed (Permission g) = false ->
      (exists e, grant_loop (g :: rest) loop_entry (b, log) = (Raised e, (b, log))) /\
      (forall u, grantee_user g (b, log) = (Returned u, (b, log)) ->
                 grant_loop (g :: rest) loop_entry (b, log) =
                 (Raised UnboundLocalError, (b, log)))) /\
  (forall g0 rest l s,
      listed (Permission g0) = true ->
      grant_loop (g0 :: rest) l s =
      grant_loop (g0 :: carry (Permission g0) rest) l s) /\
  details (final (_aws_acl (acl_answer [ grant_to "alice" "READ";
                                          grant_to "bob" "WRITE_ACP" ]))
                 acme_open []) =
  ["LIST"; "alice [R]"; "bob [R]"].
Proof.
  split; [exact grant_loop_listed_bound|].
  split; [exact grant_loop_first_unlisted|].
  split; [|reflexivity].
  intros g0 rest l [b log] Hg0.
  cbn [grant_loop]. unfold bind.
  destruct (grant_step g0 l (b, log)) as [[l'|e] [b' log']] eqn:E; [|reflexivity].
  destruct (permission_letter (Permission g0)) as [c|] eqn:Ec.
  2:{ apply listed_letter in Hg0. congruence. }
  destruct (grant_step_listed g0 l b log l' b' log' c Ec E) as [Hs Hr].
  now apply (carry_invariant rest (Permission g0) c).
Qed.

Lemma aws_acl_symbol_precondition_witness :
  grant_loop [grant_to "alice" "WRITE_ACP"; grant_to "alice" "READ"] loop_entry
    (acme_open, []) =
    (Raised UnboundLocalError, (acme_open, [])) /\
  grant_loop [grant_to "alice" "READ"; grant_to "bob" "WRITE_ACP"] loop_entry
    (acme_open, []) =
  grant_loop [grant_to "alice" "READ";
              with_permission (grant_to "bob" "WRITE_ACP") "READ"] loop_entry
    (acme_open, []).
Proof.
  destruct aws_acl_symbol_precondition as (_ & Hfirst & Hlater & _).
  split.
  - apply (proj2 (Hfirst (grant_to "alice" "WRITE_ACP") [grant_to "alice" "READ"]
                    acme_open [] eq_refl) "alice").
    reflexivity.
  - apply (Hlater (grant_to "alice" "READ") [grant_to "bob" "WRITE_ACP"]
             loop_entry (acme_open, [])).
    reflexivity.
Defined.

(** C8 at the failing input: the ACL lists WRITE_ACP for alice, then READ
    for alice.  [_aws_acl] raises UnboundLocalError on the first grant; no
    detail line is written for alice, the details are what the classifier
    left. *)
Theorem aws_acl_unlisted_first_grant :
  let grants := [grant_to "alice" "WRITE_ACP"; grant_to "alice" "READ"] in
  _aws_acl (acl_answer grants) (acme_open, []) =
    (Raised UnboundLocalError,
     (set_acl (AwsAcl (ManyGrants grants)) acme_open,
      [GET "https://acme.s3.amazonaws.com/?acl"])) /\
  details (final (_aws_acl (acl_answer grants)) acme_open []) = ["LIST"].
Proof. split; reflexivity. Qed.

(** The case of the specification: READ then WRITE for alice gives the
    single line alice [RW]. *)
Example aws_acl_alice_read_write :
  details (final (_aws_acl (acl_answer [ grant_to "alice" "READ";
                                          grant_to "alice" "WRITE" ]))
                 acme_open []) =
  ["LIST"; "alice [RW]"].
Proof. reflexivity. Qed.

(* ===================================================================== *)
(** * The fingerprint worker                                              *)
(* ===================================================================== *)

(** C6 at the failing input: an object URL on storage.googleapis.com is
    fingerprinted as google; the host has three labels, the path has a
    first segment and the registrable domain is one of the generic ones,
    and the name handed to [Bucket] is the one-element list holding the
    segment, not the segment. *)
Theorem bucket_name_is_a_list :
  fingerprint plain_lib object_url object_response = Some "google" /\
  Py.split "." (netloc (urlparse plain_lib object_url)) =
    ["storage"; "googleapis"; "com"] /\
  registered_domain_label (tldextract_extract plain_lib object_url) = "googleapis" /\
  bucket_name plain_lib object_url = PList ["mybucket"] /\
  bucket_name plain_lib object_url <> PStr "mybucket".
Proof.
  repeat split; try reflexivity.
  vm_compute. discriminate.
Qed.

(** The four branches of the name derivation: the first label of a host of
    more than three labels; else the registrable domain when the path has
    no first segment; else, for a generic base domain, the one-element list
    holding the first segment; else the registrable domain. *)
Lemma bucket_name_branches lib url :
  let labels := Py.split "." (netloc (urlparse lib url)) in
  let segments := Py.split "/" (path (urlparse lib url)) in
  let domain_name := registered_domain_label (tldextract_extract lib url) in
  ((3 < List.length labels)%nat ->
   bucket_name lib url = PStr (hd EmptyString labels)) /\
  ((List.length labels <= 3)%nat -> nth_error segments 1 = None ->
   bucket_name lib url = PStr domain_name) /\
  (forall segment,
      (List.length labels <= 3)%nat -> nth_error segments 1 = Some segment ->
      mem domain_name generic_base_domains = true ->
      bucket_name lib url = PList [segment]) /\
  (forall segment,
      (List.length labels <= 3)%nat -> nth_error segments 1 = Some segment ->
      mem domain_name generic_base_domains = false ->
      bucket_name lib url = PStr domain_name).
Proof.
  cbn zeta. unfold bucket_name.
  repeat split.
  - intros H. apply Nat.ltb_lt in H. now rewrite H.
  - intros H Hn. apply Nat.ltb_ge in H. rewrite H.
    destruct (Py.split "/" (path (urlparse lib url))) as [|s0 [|s1 rest]];
      cbn in *; congruence.
  - intros segment H Hn Hm. apply Nat.ltb_ge in H. rewrite H.
    destruct (Py.split "/" (path (urlparse lib url))) as [|s0 [|s1 rest]];
      cbn in *; try congruence.
    rewrite Hm. congruence.
  - intros segment H Hn Hm. apply Nat.ltb_ge in H. rewrite H.
    destruct (Py.split "/" (path (urlparse lib url))) as [|s0 [|s1 rest]];
      cbn in *; try congruence.
    now rewrite Hm.
Qed.

Lemma insert_sorted_In x y l : In x (Py.insert_sorted y l) <-> x = y \/ In x l.
Proof.
  induction l as [|z l IH]; cbn.
  - intuition.
  - destruct (String.leb y z); cbn; rewrite ?IH; intuition.
Qed.

Lemma sort_In x l : In x (Py.sort l) <-> In x l.
Proof.
  induction l as [|y l IH]; cbn; [tauto|].
  rewrite insert_sorted_In, IH. intuition.
Qed.

Lemma about_listed_once (pyset : PySet) :
  count_occ string_dec
    (Crawl.list_urls plain_lib pyset (same_page_twice pyset) false false)
    "http://example.com/about" = 1%nat.
Proof.
  set (U := "http://example.com/about").
  assert (Hin : In U (Crawl.list_urls plain_lib pyset (same_page_twice pyset)
                        false false)).
  { unfold same_page_twice. cbn [Crawl.list_urls Crawl.urls Crawl.childs].
    apply list_of_set_In, sort_In, in_map_iff. exists U. split; [reflexivity|].
    cbn [map snd flat_map filter app]. rewrite !app_nil_r.
    apply filter_In. split; [|reflexivity].
    unfold Crawl.extract_links. apply list_of_set_In. left. reflexivity. }
  pose proof (list_urls_no_repeat plain_lib pyset (same_page_twice pyset) false false) as Hnd.
  rewrite (NoDup_count_occ string_dec) in Hnd. specialize (Hnd U).
  apply (count_occ_In string_dec) in Hin. lia.
Qed.

(** [list_urls] never returns a URL twice, whatever order sets iterate in;
    a page with the two anchors [about] and [http://example.com/about]
    lists that URL exactly once. *)
Theorem list_urls_deduplicates :
  (forall lib pyset self scope full_query,
      NoDup (Crawl.list_urls lib pyset self scope full_query)) /\
  (forall pyset,
      count_occ string_dec
        (Crawl.list_urls plain_lib pyset (same_page_twice pyset) false false)
        "http://example.com/about" = 1%nat).
Proof. split; [exact list_urls_no_repeat | exact about_listed_once]. Qed.

(** Where state DOMAIN does come from: an Azure candidate that resolves
    and whose HTTP probe raises is appended with state DOMAIN, risk LOW and
    no details, without any enumeration. *)
Lemma azure_without_http_answer_is_DOMAIN net base_name work results log :
  resolves net (snd (fst work)) = true ->
  head_response net ("http://" ++ snd (fst work))%string = None ->
  search_buckets_item net base_name "azure" work (results, log) =
  (Returned tt,
   (results ++ [set_state DOMAIN
                  (Bucket_init (PStr (snd work)) (snd (fst work)) "azure"
                     (fst (fst work)))],
    (log ++ [DNS (snd (fst work))]) ++ [HEAD ("http://" ++ snd (fst work))%string])).
Proof.
  intros Hd Hh.
  unfold search_buckets_item, check_dns, check_host, bind, send, ret, call,
    results_append, process_status, update; cbn [fst snd].
  rewrite Hd, Hh. reflexivity.
Qed.

Lemma azure_without_http_answer_is_DOMAIN_witness :
  search_buckets_item dns_only "acme" "azure" acme_on_files ([], []) =
  (Returned tt,
   ([] ++ [set_state DOMAIN
             (Bucket_init (PStr (snd acme_on_files)) (snd (fst acme_on_files)) "azure"
                (fst (fst acme_on_files)))],
    ([] ++ [DNS (snd (fst acme_on_files))]) ++
    [HEAD ("http://" ++ snd (fst acme_on_files))%string])).
Proof.
  apply (azure_without_http_answer_is_DOMAIN dns_only "acme" acme_on_files [] []);
    reflexivity.
Defined.

(* ===================================================================== *)
(** * The accumulation of the grant loop against its specification        *)
(* ===================================================================== *)

Lemma mem_In x l : mem x l = true <-> In x l.
Proof.
  unfold mem. rewrite existsb_exists. split.
  - intros (y & Hy & E). apply String.eqb_eq in E. now subst.
  - intros H. exists x. split; [exact H | apply String.eqb_refl].
Qed.

Lemma first_seen_In x l : In x (first_seen l) <-> In x l.
Proof.
  induction l as [|y l IH]; cbn; [tauto|].
  rewrite filter_In, IH. split.
  - intros [H|[H _]]; auto.
  - intros [H|H]; auto.
    destruct (String.eqb x y) eqn:E.
    + apply String.eqb_eq in E. auto.
    + right. split; [exact H | reflexivity].
Qed.

Lemma mem_first_seen x l : mem x (first_seen l) = mem x l.
Proof.
  destruct (mem x l) eqn:E.
  - apply (proj2 (mem_In x (first_seen l))), (proj2 (first_seen_In x l)),
      (proj1 (mem_In x l)), E.
  - destruct (mem x (first_seen l)) eqn:E'; [|reflexivity].
    apply (proj1 (mem_In x (first_seen l))) in E'.
    apply (proj1 (first_seen_In x l)) in E'.
    apply (proj2 (mem_In x l)) in E'. congruence.
Qed.

Lemma first_seen_NoDup l : NoDup (first_seen l).
Proof.
  induction l as [|y l IH]; cbn; constructor.
  - rewrite filter_In. intros [_ H]. now rewrite String.eqb_refl in H.
  - now apply NoDup_filter.
Qed.

Lemma first_seen_snoc l x :
  first_seen (l ++ [x]) = if mem x l then first_seen l else first_seen l ++ [x].
Proof.
  induction l as [|y l IH]; [reflexivity|].
  cbn [app first_seen]. rewrite IH.
  change (mem x (y :: l)) with (String.eqb x y || mem x l).
  destruct (String.eqb x y) eqn:E; cbn [orb].
  - destruct (mem x l); [reflexivity|].
    rewrite filter_app. cbn [filter]. rewrite E. cbn. now rewrite app_nil_r.
  - destruct (mem x l); [reflexivity|].
    rewrite filter_app. cbn [filter]. rewrite E. reflexivity.
Qed.

Lemma concat_all_snoc l c : concat_all (l ++ [c]) = (concat_all l ++ c)%string.
Proof.
  unfold concat_all. induction l as [|x l IH]; cbn.
  - apply append_empty_r.
  - rewrite IH. now rewrite string_append_assoc.
Qed.

Lemma prefix_empty s : String.prefix EmptyString s = true.
Proof. destruct s; reflexivity. Qed.

Lemma contains_concat_all a ls :
  Forall single ls ->
  Py.contains (String a EmptyString) (concat_all ls) = mem (String a EmptyString) ls.
Proof.
  induction 1 as [|x ls [b ->] _ IH]; [reflexivity|].
  change (concat_all (String b EmptyString :: ls)) with (String b (concat_all ls)).
  cbn [Py.contains String.prefix mem existsb]. fold (mem (String a EmptyString) ls).
  rewrite IH. destruct (ascii_dec a b) as [->|Hab].
  - now rewrite prefix_empty, String.eqb_refl.
  - cbn [orb]. destruct (String.eqb_spec (String a EmptyString) (String b EmptyString)) as [E|_].
    + inversion E; congruence.
    + reflexivity.
Qed.

Lemma dict_get_keyed (f : string -> string) u ks :
  dict_get u (map (fun k => (k, f k)) ks) = if mem u ks then Some (f u) else None.
Proof.
  induction ks as [|k ks IH]; [reflexivity|].
  cbn [map dict_get mem existsb]. fold (mem u ks).
  destruct (String.eqb_spec u k) as [->|_]; [reflexivity | exact IH].
Qed.

Lemma dict_set_keyed (f : string -> string) u v ks :
  NoDup ks -> In u ks ->
  dict_set u v (map (fun k => (k, f k)) ks) =
  map (fun k => (k, if String.eqb k u then v else f k)) ks.
Proof.
  induction 1 as [|k ks Hk Hnd IH]; intros Hin; [destruct Hin|].
  cbn [map dict_set].
  destruct (String.eqb_spec u k) as [->|Hne].
  - rewrite String.eqb_refl. f_equal.
    apply map_ext_in. intros k' Hk'.
    destruct (String.eqb_spec k' k) as [->|_]; [contradiction | reflexivity].
  - destruct (String.eqb_spec k u) as [E|_]; [congruence|].
    f_equal. apply IH. destruct Hin; [congruence | assumption].
Qed.

Lemma symbols_granted_snoc v done u c :
  symbols_granted v (done ++ [(u, c)]) =
  symbols_granted v done ++ (if String.eqb u v then [c] else []).
Proof.
  unfold symbols_granted. rewrite filter_app, map_app. cbn.
  destruct (String.eqb u v); reflexivity.
Qed.

Lemma symbols_granted_none u done :
  mem u (map fst done) = false -> symbols_granted u done = [].
Proof.
  unfold symbols_granted. induction done as [|[k x] done IH]; [reflexivity|].
  cbn [map fst mem existsb filter]. fold (mem u (map fst done)).
  rewrite String.eqb_sym. destruct (String.eqb k u); cbn; [discriminate | exact IH].
Qed.

Lemma symbols_granted_single u done :
  Forall (fun e => single (snd e)) done -> Forall single (symbols_granted u done).
Proof.
  unfold symbols_granted. induction 1 as [|e done He _ IH]; cbn; [constructor|].
  destruct (String.eqb (fst e) u); cbn; auto.
Qed.

Lemma first_seen_single l : Forall single l -> Forall single (first_seen l).
Proof.
  intros H. rewrite Forall_forall in *. intros x Hx. apply H, first_seen_In, Hx.
Qed.

(** One more pair: the function of the loop and the specification agree. *)
Lemma add_right_spec done u c :
  Forall (fun e => single (snd e)) done -> single c ->
  add_right (spec_rights done) (u, c) = spec_rights (done ++ [(u, c)]).
Proof.
  intros Hdone [a ->].
  unfold add_right, spec_rights. cbn [fst snd].
  rewrite dict_get_keyed, mem_first_seen, map_app.
  change (map fst [(u, String a EmptyString)]) with [u].
  rewrite first_seen_snoc.
  destruct (mem u (map fst done)) eqn:Hu.
  - rewrite contains_concat_all
      by (apply first_seen_single, symbols_granted_single, Hdone).
    rewrite mem_first_seen.
    destruct (mem (String a EmptyString) (symbols_granted u done)) eqn:Hc; cbn [negb].
    + apply map_ext. intros v. f_equal. rewrite symbols_granted_snoc.
      destruct (String.eqb_spec u v) as [<-|_]; [|now rewrite app_nil_r].
      now rewrite first_seen_snoc, Hc.
    + rewrite dict_set_keyed
        by (try apply first_seen_NoDup;
            apply (proj2 (first_seen_In _ _)), (proj1 (mem_In _ _)), Hu).
      apply map_ext. intros v. f_equal. rewrite symbols_granted_snoc.
      rewrite (String.eqb_sym v u).
      destruct (String.eqb_spec u v) as [<-|_]; [|now rewrite app_nil_r].
      now rewrite first_seen_snoc, Hc, concat_all_snoc.
  - rewrite map_app. cbn [map]. f_equal.
    + apply map_ext_in. intros v Hv. f_equal. rewrite symbols_granted_snoc.
      destruct (String.eqb_spec u v) as [<-|_]; [|now rewrite app_nil_r].
      apply (proj1 (first_seen_In _ _)) in Hv.
      apply (proj2 (mem_In _ _)) in Hv. congruence.
    + rewrite symbols_granted_snoc, String.eqb_refl, symbols_granted_none by exact Hu.
      reflexivity.
Qed.

Lemma fold_add_right_spec todo :
  forall done,
    Forall (fun e => single (snd e)) done ->
    Forall (fun e => single (snd e)) todo ->
    fold_left add_right todo (spec_rights done) = spec_rights (done ++ todo).
Proof.
  induction todo as [|[u c] todo IH]; intros done Hd Ht; cbn [fold_left].
  - now rewrite app_nil_r.
  - inversion Ht as [|? ? Hc Ht']; subst.
    rewrite add_right_spec by assumption.
    rewrite IH; [now rewrite <- app_assoc | | assumption].
    apply Forall_app. split; [assumption | now constructor].
Qed.

Lemma permission_letter_single p c : permission_letter p = Some c -> single c.
Proof.
  unfold permission_letter.
  destruct (mem p ["READ"; "READ_ACP"]); [intros [= <-]; now eexists|].
  destruct (mem p ["WRITE"; "WRITE_ACL"]); [intros [= <-]; now eexists|].
  destruct (mem p ["FULL_CONTROL"]); [intros [= <-]; now eexists | discriminate].
Qed.

Lemma record_right_add u r c s :
  record_right u {| rights := r; symb := Some c |} s =
  (Returned {| rights := add_right r (u, c); symb := Some c |}, s).
Proof.
  unfold record_right, add_right, read_symb, bind, ret. cbn [rights symb fst snd].
  destruct (dict_get u r) as [had|]; [|reflexivity].
  destruct (negb (Py.contains c had)); reflexivity.
Qed.

(** Under the precondition the loop is a fold of [add_right]; it returns,
    sends nothing and leaves the details alone. *)
Lemma grant_loop_fold gs :
  forall entries l b log,
    Forall2 grant_entry gs entries ->
    exists l' b',
      grant_loop gs l (b, log) = (Returned l', (b', log)) /\
      rights l' = fold_left add_right entries (rights l) /\
      details b' = details b.
Proof.
  induction gs as [|g gs IH]; intros entries l b log HF;
    inversion HF as [|? e ? entries' [Hu Hc] HF']; subst.
  - now exists l, b.
  - cbn [grant_loop fold_left]. unfold bind.
    rewrite (grant_step_returned g l b log (fst e) Hu), Hc, record_right_add.
    destruct (IH entries' {| rights := add_right (rights l) (fst e, snd e);
                             symb := Some (snd e) |}
                 (if raises_risk (Permission g) then set_risk HIGH b else b) log HF')
      as (l' & b' & E & Hr & Hd).
    exists l', b'. split; [exact E|]. split.
    + rewrite Hr. cbn [rights]. now destruct e.
    + rewrite Hd. now destruct (raises_risk (Permission g)).
Qed.

(** The lines [_aws_acl] writes for a list of grants with listed
    permissions and derivable grantee keys: it returns, and appends one
    line per grantee, in order of first appearance, each with the
    grantee's symbols without repetition in the order they were met. *)
Lemma aws_acl_lines net gs entries b log :
  get_acl_document net (aws_api (name b)) =
    Some (AccessControlPolicy (Some (ListElement (Some (ManyGrants gs))))) ->
  Forall2 grant_entry gs entries ->
  fst (_aws_acl net (b, log)) = Returned tt /\
  details (final (_aws_acl net) b log) =
    details b ++ map detail_line (spec_rights entries).
Proof.
  intros Hdoc HF.
  assert (Hs : Forall (fun e => single (snd e)) entries).
  { clear Hdoc. induction HF as [|g e gs entries [_ Hc] _ IH]; constructor; auto.
    eapply permission_letter_single, Hc. }
  destruct (grant_loop_fold gs entries loop_entry
              (set_acl (AwsAcl (ManyGrants gs)) b)
              (log ++ [GET (aws_api (name b))]) HF)
    as (l' & b' & E & Hr & Hd).
  assert (Hrun : _aws_acl net (b, log) =
                 (Returned tt,
                  (details_extend (map detail_line (rights l')) b',
                   log ++ [GET (aws_api (name b))]))).
  { unfold _aws_acl.
    unfold bind at 1, get_self; cbn [fst snd].
    unfold bind at 1, send; cbn [fst snd].
    rewrite Hdoc.
    unfold bind at 1, update; cbn [fst snd].
    fold loop_entry. unfold bind. rewrite E. reflexivity. }
  unfold final. rewrite Hrun. cbn [fst snd details_extend details].
  rewrite Hr, Hd. cbn [rights loop_entry set_acl details].
  change (@nil (string * string)) with (spec_rights []).
  rewrite fold_add_right_spec by (auto; constructor).
  split; reflexivity.
Qed.

Lemma aws_acl_lines_witness :
  fst (_aws_acl (acl_answer [grant_to "alice" "READ"; grant_to "alice" "WRITE"])
         (acme_open, [])) = Returned tt /\
  details (final (_aws_acl (acl_answer [ grant_to "alice" "READ";
                                          grant_to "alice" "WRITE" ]))
                 acme_open []) =
    details acme_open ++ map detail_line (spec_rights [("alice", "R"); ("alice", "W")]).
Proof.
  apply (aws_acl_lines (acl_answer [grant_to "alice" "READ"; grant_to "alice" "WRITE"])
           [grant_to "alice" "READ"; grant_to "alice" "WRITE"]
           [("alice", "R"); ("alice", "W")] acme_open []).
  - reflexivity.
  - repeat constructor.
Defined.

(* ===================================================================== *)
(** * More on the classifier                                              *)
(* ===================================================================== *)

Lemma classify_state_range base_name response b log :
  let b' := final (classify base_name response) b log in
  state b' = OPEN \/ state b' = PRIVATE \/ state b' = UNKNOWN.
Proof. cbn zeta. run_classify; cbn; auto. Qed.

Lemma process_status_final net base_name response b log :
  final (process_status net base_name (Some response)) b log =
  final (get_rights net base_name) (final (classify base_name response) b log) log.
Proof.
  unfold final at 1, process_status.
  now rewrite (bind_returned _ _ _ _ _ (classify_run base_name response b log)).
Qed.

Lemma classified_states net base_name response b log :
  let b' := final (process_status net base_name (Some response)) b log in
  state b' = OPEN \/ state b' = PRIVATE \/ state b' = UNKNOWN.
Proof.
  cbn zeta. rewrite process_status_final.
  destruct (keeps_get_rights net base_name
              (final (classify base_name response) b log) log)
    as (_ & _ & _ & _ & [Hs|Hs] & _).
  - rewrite Hs. apply classify_state_range.
  - now left.
Qed.

(** A bucket that has been through [process_status] with an HTTP answer is
    never left CLOSE or DOMAIN: its state is OPEN, PRIVATE or UNKNOWN, for
    every provider and whether the ACL enumeration returns or raises. *)
Theorem process_status_state_range net base_name response b log :
  let b' := final (process_status net base_name (Some response)) b log in
  state b' = OPEN \/ state b' = PRIVATE \/ state b' = UNKNOWN.
Proof. apply classified_states. Qed.

(** Access denied: for a 400, 401 or 403 answer that was not redirected
    through a 301/302, and a provider other than azure, [process_status]
    returns without any request; the state is PRIVATE, the details are
    untouched, and the risk is MEDIUM for the seed name and otherwise what
    it was. *)
Theorem process_status_denied net base_name response b log :
  code_in (status_code response) [400; 401; 403]%Z = true ->
  redirected response = false ->
  cloud b <> "azure" ->
  exists b',
    process_status net base_name (Some response) (b, log) = (Returned tt, (b', log)) /\
    state b' = PRIVATE /\
    details b' = details b /\
    risk b' = (if name_eqb (name b) base_name then MEDIUM else risk b) /\
    name b' = name b /\ domain b' = domain b /\ acl b' = acl b.
Proof.
  intros H4 Hred Hc.
  assert (H200 : (status_code response =? 200)%Z = false).
  { destruct (status_code response =? 200)%Z eqn:E; [|reflexivity].
    apply Z.eqb_eq in E. rewrite E in H4. discriminate. }
  exists (final (classify base_name response) b log).
  assert (Hcl : state (final (classify base_name response) b log) = PRIVATE /\
                details (final (classify base_name response) b log) = details b /\
                risk (final (classify base_name response) b log) =
                  (if name_eqb (name b) base_name then MEDIUM else risk b) /\
                name (final (classify base_name response) b log) = name b /\
                domain (final (classify base_name response) b log) = domain b /\
                acl (final (classify base_name response) b log) = acl b).
  { unfold final, classify, seed_rule, status_rules, redirect_block,
      bind, when, get_self, update, ret; cbn [fst snd].
    rewrite H200, H4, Hred.
    destruct (name_eqb (name b) base_name); cbn; auto 10. }
  split; [|exact Hcl].
  unfold process_status.
  rewrite (bind_returned _ _ _ _ _ (classify_run base_name response b log)).
  apply get_rights_skipped.
  - now rewrite classify_cloud.
  - destruct Hcl as [Hs _]. rewrite Hs. discriminate.
Qed.

Lemma process_status_denied_witness :
  exists b',
    process_status offline "acme" (Some forbidden) (acme_dev_s3, []) =
      (Returned tt, (b', [])) /\
    state b' = PRIVATE /\
    details b' = details acme_dev_s3 /\
    risk b' = (if name_eqb (name acme_dev_s3) "acme" then MEDIUM else risk acme_dev_s3) /\
    name b' = name acme_dev_s3 /\ domain b' = domain acme_dev_s3 /\
    acl b' = acl acme_dev_s3.
Proof.
  apply (process_status_denied offline "acme" forbidden acme_dev_s3 []).
  - reflexivity.
  - reflexivity.
  - discriminate.
Defined.

(** An answer whose status is none of 200, 400, 401, 403, 500, 502, 503,
    not redirected through a 301/302, for a provider other than azure:
    [process_status] returns without any request, with state UNKNOWN, risk
    MEDIUM and the one new detail Response: followed by the status. *)
Theorem process_status_unrecognised net base_name response b log :
  code_in (status_code response) [200; 400; 401; 403; 500; 502; 503]%Z = false ->
  redirected response = false ->
  cloud b <> "azure" ->
  exists b',
    process_status net base_name (Some response) (b, log) = (Returned tt, (b', log)) /\
    state b' = UNKNOWN /\
    risk b' = MEDIUM /\
    details b' = details b ++ [("Response: " ++ string_of_Z (status_code response))%string].
Proof.
  intros Hno Hred Hc.
  unfold code_in in Hno. cbn [existsb] in Hno.
  repeat match type of Hno with
         | (?a || ?b) = false => apply orb_false_iff in Hno; destruct Hno as [? Hno]
         end.
  exists (final (classify base_name response) b log).
  assert (Hcl : state (final (classify base_name response) b log) = UNKNOWN /\
                risk (final (classify base_name response) b log) = MEDIUM /\
                details (final (classify base_name response) b log) =
                  details b ++ [("Response: " ++ string_of_Z (status_code response))%string]).
  { unfold final, classify, seed_rule, status_rules, redirect_block, code_in,
      bind, when, get_self, update, ret; cbn [fst snd existsb].
    repeat match goal with
           | H : (_ =? _)%Z = false |- _ => rewrite H; clear H
           end.
    rewrite Hred. cbn [orb].
    destruct (name_eqb (name b) base_name); cbn; auto. }
  split; [|exact Hcl].
  unfold process_status.
  rewrite (bind_returned _ _ _ _ _ (classify_run base_name response b log)).
  apply get_rights_skipped.
  - now rewrite classify_cloud.
  - destruct Hcl as [Hs _]. rewrite Hs. discriminate.
Qed.

Lemma process_status_unrecognised_witness :
  exists b',
    process_status offline "acme" (Some teapot) (acme_s3, []) = (Returned tt, (b', [])) /\
    state b' = UNKNOWN /\
    risk b' = MEDIUM /\
    details b' = details acme_s3 ++ [("Response: " ++ string_of_Z (status_code teapot))%string].
Proof.
  apply (process_status_unrecognised offline "acme" teapot acme_s3 []).
  - reflexivity.
  - reflexivity.
  - discriminate.
Defined.

Lemma classify_server_error base_name response b log :
  code_in (status_code response) [500; 502; 503]%Z = true ->
  redirected response && auth_url response = false ->
  let b' := final (classify base_name response) b log in
  state b' = OPEN /\ risk b' = MEDIUM /\ In "WebApp Error" (details b').
Proof.
  intros H5 Hred.
  assert (H200 : (status_code response =? 200)%Z = false).
  { destruct (status_code response =? 200)%Z eqn:E; [|reflexivity].
    apply Z.eqb_eq in E. rewrite E in H5. discriminate. }
  assert (H4 : code_in (status_code response) [400; 401; 403]%Z = false).
  { unfold code_in in *. cbn [existsb] in *.
    destruct (status_code response =? 500)%Z eqn:E1;
      [apply Z.eqb_eq in E1; now rewrite E1|].
    destruct (status_code response =? 502)%Z eqn:E2;
      [apply Z.eqb_eq in E2; now rewrite E2|].
    destruct (status_code response =? 503)%Z eqn:E3;
      [apply Z.eqb_eq in E3; now rewrite E3 | discriminate]. }
  unfold final, classify, seed_rule, status_rules, redirect_block,
    bind, when, get_self, update, ret; cbn [fst snd].
  rewrite H200, H4, H5.
  destruct (name_eqb (name b) base_name); cbn [fst snd];
    destruct (redirected response); cbn [fst snd];
    try (destruct (auth_url response); [discriminate|]); cbn;
    rewrite ?in_app_iff; cbn; auto 8.
Qed.

(** A 500, 502 or 503 answer, not redirected to a login or signin URL,
    leaves the bucket OPEN with the detail WebApp Error and a risk of
    MEDIUM or HIGH, for every provider and whether the ACL enumeration that
    follows returns or raises. *)
Theorem process_status_server_error net base_name response b log :
  code_in (status_code response) [500; 502; 503]%Z = true ->
  redirected response && auth_url response = false ->
  let b' := final (process_status net base_name (Some response)) b log in
  state b' = OPEN /\ (risk b' = MEDIUM \/ risk b' = HIGH) /\
  In "WebApp Error" (details b').
Proof.
  intros H5 Hred. cbn zeta. rewrite process_status_final.
  destruct (classify_server_error base_name response b log H5 Hred) as (Hs & Hr & Hd).
  destruct (keeps_get_rights net base_name
              (final (classify base_name response) b log) log)
    as (_ & _ & _ & _ & Hst & Hrk & extra & Hde).
  repeat split.
  - destruct Hst; congruence.
  - destruct Hrk as [Hrk|Hrk]; [left; congruence | now right].
  - rewrite Hde, in_app_iff. now left.
Qed.

Lemma process_status_server_error_witness :
  let b' := final (process_status offline "acme" (Some unavailable)) acme_s3 [] in
  state b' = OPEN /\ (risk b' = MEDIUM \/ risk b' = HIGH) /\
  In "WebApp Error" (details b').
Proof.
  apply (process_status_server_error offline "acme" unavailable acme_s3 []);
    reflexivity.
Defined.

Lemma classify_risk_low base_name response b log :
  risk (final (classify base_name response) b log) = LOW ->
  (redirected response = true /\ auth_url response = true) \/
  (code_in (status_code response) [400; 401; 403]%Z = true /\
   name_eqb (name b) base_name = false /\ risk b = LOW).
Proof.
  run_classify; cbn; intros H; try discriminate; auto.
Qed.

(** When does a classified bucket end with risk LOW?  Only when the answer
    was redirected (first hop 301/302) to a login or signin URL, or when it
    was a 400/401/403 for a name other than the seed on a bucket whose
    risk was LOW before.  Every other answer ends MEDIUM or HIGH. *)
Theorem process_status_risk_low net base_name response b log :
  risk (final (process_status net base_name (Some response)) b log) = LOW ->
  (redirected response = true /\ auth_url response = true) \/
  (code_in (status_code response) [400; 401; 403]%Z = true /\
   name_eqb (name b) base_name = false /\ risk b = LOW).
Proof.
  rewrite process_status_final. intros H.
  apply (classify_risk_low base_name response b log).
  destruct (keeps_get_rights net base_name
              (final (classify base_name response) b log) log)
    as (_ & _ & _ & _ & _ & [Hrk|Hrk] & _); congruence.
Qed.

Lemma process_status_risk_low_witness :
  (redirected forbidden = true /\ auth_url forbidden = true) \/
  (code_in (status_code forbidden) [400; 401; 403]%Z = true /\
   name_eqb (name acme_dev_s3) "acme" = false /\ risk acme_dev_s3 = LOW).
Proof.
  apply (process_status_risk_low offline "acme" forbidden acme_dev_s3 []).
  reflexivity.
Defined.

(* ===================================================================== *)
(** * The Google and the Azure enumerator                                 *)
(* ===================================================================== *)

(** [_google_acl], case by case.  A request that raises propagates and
    leaves the bucket alone; an answer without permissions changes
    nothing; an answer with permissions records them in [acl], appends the
    one line AllUsers [symbols] with the symbols L, R, W, V in that order
    for list, get, any of create/delete/update, and setIamPolicy, and sets
    the risk to HIGH exactly when W or V is among them.  The state is
    never touched and one GET is sent in every case. *)
Theorem google_acl_outcomes net b log :
  let sent := log ++ [GET (google_api (name b))] in
  (get_json_permissions net (google_api (name b)) = None ->
   _google_acl net (b, log) = (Raised RequestError, (b, sent))) /\
  (get_json_permissions net (google_api (name b)) = Some None \/
   get_json_permissions net (google_api (name b)) = Some (Some []) ->
   _google_acl net (b, log) = (Returned tt, (b, sent))) /\
  (forall p ps,
      get_json_permissions net (google_api (name b)) = Some (Some (p :: ps)) ->
      _google_acl net (b, log) =
      (Returned tt,
       (details_append ("AllUsers [" ++ google_symbols (p :: ps) ++ "]")%string
          ((if google_writable (p :: ps) then set_risk HIGH else fun b => b)
             (set_acl (GoogleAcl (p :: ps)) b)),
        sent))).
Proof.
  cbn zeta. repeat split.
  - intros H.
    unfold _google_acl, bind, get_self, send; cbn [fst snd]. now rewrite H.
  - intros [H|H];
      unfold _google_acl, bind, get_self, send; cbn [fst snd]; now rewrite H.
  - intros p ps H.
    unfold _google_acl, bind, get_self, send, update, ret; cbn [fst snd].
    rewrite H. unfold google_symbols, google_writable, detail_line. cbn [fst snd].
    destruct (mem "storage.objects.list" (p :: ps)),
      (mem "storage.objects.get" (p :: ps)),
      (mem "storage.objects.create" (p :: ps)),
      (mem "storage.objects.delete" (p :: ps)),
      (mem "storage.objects.update" (p :: ps)),
      (mem "storage.buckets.setIamPolicy" (p :: ps)); reflexivity.
Qed.

Lemma google_acl_outcomes_witness :
  _google_acl (iam_answer ["storage.objects.get"; "storage.objects.delete"])
    (acme_gcs_open, []) =
  (Returned tt,
   (details_append "AllUsers [RW]"
      (set_risk HIGH
         (set_acl (GoogleAcl ["storage.objects.get"; "storage.objects.delete"])
            acme_gcs_open)),
    [GET (google_api (name acme_gcs_open))])).
Proof.
  destruct (google_acl_outcomes
              (iam_answer ["storage.objects.get"; "storage.objects.delete"])
              acme_gcs_open []) as (_ & _ & H).
  apply (H "storage.objects.get" ["storage.objects.delete"]). reflexivity.
Defined.

(** The container loop is a filter: it returns the containers whose
    listing request is answered with 200, in the order tried and after the
    findings it was given, sends one GET per container, never raises and
    never touches the bucket. *)
Lemma probe_containers_run net domain containers :
  forall findings b log,
    probe_containers net domain containers findings (b, log) =
    (Returned
       (findings ++
        filter (fun c => answers_200 net (container_url domain c)) containers),
     (b, log ++ map (fun c => GET (container_url domain c)) containers)).
Proof.
  induction containers as [|c cs IH]; intros findings b log.
  - cbn. now rewrite !app_nil_r.
  - cbn [probe_containers map filter].
    unfold bind at 1, requests_get_status, bind at 1, send, ret; cbn [fst snd].
    unfold answers_200 at 1.
    destruct (get_status_code net (container_url domain c)) as [code|].
    + destruct (code =? 200)%Z; rewrite IH; cbn [app];
        now rewrite <- ?app_assoc.
    + rewrite IH. cbn [app]. now rewrite <- ?app_assoc.
Qed.

Lemma findings_strings_PStr l : findings_strings (map PStr l) = Some l.
Proof. induction l as [|x l IH]; cbn; [reflexivity | now rewrite IH]. Qed.

Lemma filter_map_PStr (f : PyName -> bool) l :
  filter f (map PStr l) = map PStr (filter (fun c => f (PStr c)) l).
Proof.
  induction l as [|x l IH]; cbn; [reflexivity|].
  destruct (f (PStr x)); cbn; now rewrite IH.
Qed.

Lemma containers_tried_PStr base_name n :
  (map PStr COMMON_CONTAINERS ++ [PStr n]) ++
  (if negb (name_eqb (PStr n) base_name) then [PStr base_name] else []) =
  map PStr (containers_tried base_name n).
Proof.
  unfold containers_tried. cbn [name_eqb].
  rewrite !map_app. cbn [map].
  destruct (String.eqb n base_name); cbn [negb map]; now rewrite <- app_assoc.
Qed.

(** The second block of [_azure_acl] for a bucket whose name is a [str]. *)
Lemma azure_containers_run net base_name n b log :
  name b = PStr n ->
  Py.contains "blob.core.windows.net" (domain b) = true ->
  let tried := containers_tried base_name n in
  let found :=
    filter (fun c => answers_200 net (container_url (domain b) (PStr c))) tried in
  azure_containers net base_name (b, log) =
  (Returned tt,
   (match found with
    | [] => b
    | _ :: _ =>
        details_append ("Containers: " ++ Py.join "," found)%string
          (set_state OPEN (set_risk HIGH b))
    end,
    log ++ map (fun c => GET (container_url (domain b) (PStr c))) tried)).
Proof.
  intros Hn Hblob. cbn zeta.
  unfold azure_containers, bind at 1, get_self; cbn [fst snd].
  rewrite Hblob, Hn, containers_tried_PStr.
  unfold bind at 1. rewrite probe_containers_run. cbn [app].
  rewrite filter_map_PStr, map_map.
  destruct (filter _ (containers_tried base_name n)) as [|c found] eqn:E.
  - reflexivity.
  - cbn [map]. unfold bind, update; cbn [fst snd].
    change (PStr c :: map PStr found) with (map PStr (c :: found)).
    now rewrite findings_strings_PStr.
Qed.

(** [_azure_acl] on a blob-storage host (no file-storage marker in the
    domain) for a bucket whose name is a [str]: it tries the thirteen
    common containers, then the bucket's name, then the seed name when
    that is another one, with one GET each; it never raises; if none can
    be listed the bucket is unchanged, else it is OPEN with risk HIGH and
    the new detail Containers: followed by the listable ones, comma-joined
    in the order tried. *)
Theorem azure_acl_containers net base_name n b log :
  name b = PStr n ->
  Py.contains "file.core.windows.net" (domain b) = false ->
  Py.contains "blob.core.windows.net" (domain b) = true ->
  let tried := containers_tried base_name n in
  let found :=
    filter (fun c => answers_200 net (container_url (domain b) (PStr c))) tried in
  _azure_acl net base_name (b, log) =
  (Returned tt,
   (match found with
    | [] => b
    | _ :: _ =>
        details_append ("Containers: " ++ Py.join "," found)%string
          (set_state OPEN (set_risk HIGH b))
    end,
    log ++ map (fun c => GET (container_url (domain b) (PStr c))) tried)).
Proof.
  intros Hn Hfile Hblob. cbn zeta.
  unfold _azure_acl, bind at 1, azure_shares, bind at 1, get_self; cbn [fst snd].
  rewrite Hfile. cbn [ret].
  apply (azure_containers_run net base_name n b log Hn Hblob).
Qed.

Lemma azure_acl_containers_witness :
  _azure_acl public_containers "acme" (acme_blobs, []) =
  (Returned tt,
   (details_append "Containers: backup,logs" (set_state OPEN (set_risk HIGH acme_blobs)),
    [] ++ map (fun c => GET (container_url (domain acme_blobs) (PStr c)))
            (containers_tried "acme" "acme"))).
Proof.
  apply (azure_acl_containers public_containers "acme" "acme" acme_blobs []);
    reflexivity.
Defined.

(** [_azure_acl] never raises for a bucket whose name is a [str], whatever
    the domain and whatever the network answers. *)
Theorem azure_acl_never_raises net base_name n b log :
  name b = PStr n ->
  fst (_azure_acl net base_name (b, log)) = Returned tt.
Proof.
  intros Hn.
  unfold _azure_acl, bind at 1, azure_shares, bind at 1, get_self; cbn [fst snd].
  assert (Hcont : forall b1 log1, name b1 = PStr n ->
            fst (azure_containers net base_name (b1, log1)) = Returned tt).
  { intros b1 log1 Hn1.
    destruct (Py.contains "blob.core.windows.net" (domain b1)) eqn:Hblob.
    - now rewrite (azure_containers_run net base_name n b1 log1 Hn1 Hblob).
    - unfold azure_containers, bind, get_self; cbn [fst snd]. now rewrite Hblob. }
  destruct (Py.contains "file.core.windows.net" (domain b)).
  - unfold bind at 1, requests_get_status, bind at 1, send, ret; cbn [fst snd].
    destruct (get_status_code net (shares_url (domain b))) as [code|]; [|reflexivity].
    unfold when. destruct (code =? 200)%Z.
    + unfold bind, update, ret; cbn [fst snd]. apply Hcont. exact Hn.
    + unfold bind, ret; cbn [fst snd]. apply Hcont. exact Hn.
  - cbn [ret]. apply Hcont. exact Hn.
Qed.

Lemma azure_acl_never_raises_witness :
  fst (_azure_acl public_shares "acme" (acme_files, [])) = Returned tt.
Proof.
  apply (azure_acl_never_raises public_shares "acme" "acme" acme_files []).
  reflexivity.
Defined.

(** On a domain that carries neither the file-storage nor the blob-storage
    marker, [_azure_acl] does nothing: no request, no change. *)
Theorem azure_acl_idle net base_name b log :
  Py.contains "file.core.windows.net" (domain b) = false ->
  Py.contains "blob.core.windows.net" (domain b) = false ->
  _azure_acl net base_name (b, log) = (Returned tt, (b, log)).
Proof.
  intros Hfile Hblob.
  unfold _azure_acl, azure_shares, azure_containers, bind, get_self, ret;
    cbn [fst snd].
  rewrite Hfile. cbn [fst snd]. now rewrite Hblob.
Qed.

Lemma azure_acl_idle_witness :
  _azure_acl public_shares "acme"
    (Bucket_init (PStr "acme") "acme.vault.azure.net" "azure" "Key Vaults", []) =
  (Returned tt,
   (Bucket_init (PStr "acme") "acme.vault.azure.net" "azure" "Key Vaults", [])).
Proof.
  apply (azure_acl_idle public_shares "acme"); reflexivity.
Defined.

(** [_azure_acl] on a file-storage host.  It asks for the list of shares
    with one GET.  A 200 answer makes the bucket OPEN with risk HIGH and
    the new detail List Shares; any other answer changes nothing.  When
    the request raises the method returns at once: no container is probed
    even if the domain carries the blob-storage marker as well. *)
Theorem azure_acl_shares net base_name b log :
  Py.contains "file.core.windows.net" (domain b) = true ->
  Py.contains "blob.core.windows.net" (domain b) = false \/
  get_status_code net (shares_url (domain b)) = None ->
  _azure_acl net base_name (b, log) =
  (Returned tt,
   ((if answers_200 net (shares_url (domain b))
     then details_append "List Shares" (set_state OPEN (set_risk HIGH b))
     else b),
    log ++ [GET (shares_url (domain b))])).
Proof.
  intros Hfile Hor.
  unfold _azure_acl, azure_shares, bind at 1 2, get_self; cbn [fst snd].
  rewrite Hfile.
  unfold bind at 1, requests_get_status, bind at 1, send, ret; cbn [fst snd].
  unfold answers_200.
  destruct (get_status_code net (shares_url (domain b))) as [code|].
  - destruct Hor as [Hblob|]; [|discriminate].
    destruct (code =? 200)%Z;
      unfold when, azure_containers, get_self, bind, update, ret; cbn [fst snd];
      cbn [domain details_append set_state set_risk]; now rewrite Hblob.
  - reflexivity.
Qed.

Lemma azure_acl_shares_witness :
  _azure_acl public_shares "acme" (acme_files, []) =
  (Returned tt,
   (details_append "List Shares" (set_state OPEN (set_risk HIGH acme_files)),
    [GET "https://acme.file.core.windows.net/?comp=list"])).
Proof.
  apply (azure_acl_shares public_shares "acme" acme_files []);
    [reflexivity | left; reflexivity].
Defined.

(* ===================================================================== *)
(** * The brute-force queue and its worker                                *)
(* ===================================================================== *)

Lemma flat_map_length_const {A B} (f : A -> list B) (l : list A) (n : nat) :
  (forall x, List.length (f x) = n) ->
  List.length (flat_map f l) = (List.length l * n)%nat.
Proof.
  intros H. induction l as [|x l IH]; [reflexivity|].
  simpl. rewrite length_app, H, IH. reflexivity.
Qed.

Lemma search_buckets_queue_length cloud_dict names :
  List.length (search_buckets_queue cloud_dict names) =
  (List.length cloud_dict * List.length names)%nat.
Proof.
  unfold search_buckets_queue. apply flat_map_length_const.
  intros srv. apply length_map.
Qed.

(** The queue holds one entry per service and name: its length is the
    product of the two lengths, and its entries are exactly the triples
    (service label, name.service-domain, name).  The three queues of a run
    together hold as many entries as the main block announces as tries,
    21 per permutation; with a dictionary of n affixes that is
    21 * (1 + 6 n). *)
Theorem search_buckets_queue_entries :
  (forall cloud_dict names,
      List.length (search_buckets_queue cloud_dict names) =
      (List.length cloud_dict * List.length names)%nat) /\
  (forall cloud_dict names w,
      In w (search_buckets_queue cloud_dict names) <->
      exists srv_name srv_url name,
        In (srv_name, srv_url) cloud_dict /\ In name names /\
        w = (srv_name, (name ++ "." ++ srv_url)%string, name)) /\
  (forall permutations,
      (List.length (search_buckets_queue googleCloud permutations) +
       List.length (search_buckets_queue awsCloud permutations) +
       List.length (search_buckets_queue azureCloud permutations))%nat =
      tries permutations /\
      tries permutations = (21 * List.length permutations)%nat) /\
  (forall base_name lines permutations,
      generate_permutations_lines base_name lines = Some permutations ->
      tries permutations = (21 * (1 + 6 * List.length lines))%nat).
Proof.
  split; [exact search_buckets_queue_length|].
  split; [|split].
  - intros cloud_dict names w. unfold search_buckets_queue.
    rewrite in_flat_map. split.
    + intros ([srv_name srv_url] & Hsrv & Hw). apply in_map_iff in Hw.
      destruct Hw as (name & <- & Hname). now exists srv_name, srv_url, name.
    + intros (srv_name & srv_url & name & Hsrv & Hname & ->).
      exists (srv_name, srv_url). split; [exact Hsrv|].
      apply in_map_iff. now exists name.
  - intros permutations. rewrite !search_buckets_queue_length.
    unfold tries, srv_len. cbn [List.length googleCloud awsCloud azureCloud]. lia.
  - intros base_name lines permutations H.
    unfold generate_permutations_lines in H.
    rewrite permutations_loop_spec in H. inversion H; subst.
    unfold tries, srv_len. cbn [List.length googleCloud awsCloud azureCloud app].
    rewrite (flat_map_length_const (six_names base_name) lines 6)
      by reflexivity.
    lia.
Qed.

Lemma search_buckets_queue_entries_witness :
  tries ["acme"; "dev-acme"; "dev.acme"; "devacme"; "acme-dev"; "acme.dev"; "acmedev"] =
  (21 * (1 + 6 * List.length ["dev"]))%nat.
Proof.
  destruct search_buckets_queue_entries as (_ & _ & _ & H).
  apply (H "acme" ["dev"]). reflexivity.
Defined.

Lemma classify_identity base_name response b log :
  let b' := final (classify base_name response) b log in
  name b' = name b /\ domain b' = domain b /\ cloud b' = cloud b /\
  srv_name b' = srv_name b.
Proof. cbn zeta. run_classify; cbn; auto. Qed.

Lemma process_status_identity net base_name response b log :
  let b' := final (process_status net base_name response) b log in
  name b' = name b /\ domain b' = domain b /\ cloud b' = cloud b /\
  srv_name b' = srv_name b.
Proof.
  cbn zeta. destruct response as [response|]; [|cbn; auto].
  rewrite process_status_final.
  destruct (classify_identity base_name response b log) as (n1 & d1 & c1 & s1).
  destruct (keeps_get_rights net base_name
              (final (classify base_name response) b log) log)
    as (n2 & d2 & c2 & s2 & _).
  repeat split; congruence.
Qed.

(** One queue entry adds nothing or one bucket found for that entry. *)
Lemma search_buckets_item_adds net base_name provider w results log :
  exists added,
    fst (snd (search_buckets_item net base_name provider w (results, log))) =
      results ++ added /\
    (added = [] \/ exists b, added = [b] /\ found_by net provider w b).
Proof.
  unfold search_buckets_item, check_dns.
  unfold bind at 1, bind at 1, send, ret; cbn [fst snd].
  destruct (resolves net (snd (fst w))) eqn:Hdns.
  2:{ exists []. cbn. rewrite app_nil_r. auto. }
  unfold bind at 1, check_host, bind at 1, send; cbn [fst snd].
  set (log2 := (log ++ [DNS (snd (fst w))]) ++ [HEAD ("http://" ++ snd (fst w))%string]).
  set (fresh := Bucket_init (PStr (snd w)) (snd (fst w)) provider (fst (fst w))).
  assert (Hcall : forall response,
            (response <> None \/ provider = "azure") ->
            exists added,
              fst (snd (bind (call fresh (process_status net base_name response))
                             (fun b => results_append b) (results, log2))) =
                results ++ added /\
              (added = [] \/ exists b, added = [b] /\ found_by net provider w b)).
  { intros response Hresp.
    pose proof (process_status_identity net base_name response fresh log2) as Hid.
    cbn zeta in Hid. unfold final in Hid.
    unfold bind, call. cbn [fst snd].
    destruct (process_status net base_name response (fresh, log2))
      as [[u|e] [b' log3]] eqn:E; cbn [fst snd] in *.
    2:{ exists []. rewrite app_nil_r. auto. }
    exists [b']. split; [reflexivity|]. right. exists b'. split; [reflexivity|].
    destruct Hid as (Hn & Hd & Hc & Hs).
    unfold found_by. repeat split; try assumption.
    destruct response as [response|].
    - pose proof (classified_states net base_name response fresh log2) as Hst.
      cbn zeta in Hst. unfold final in Hst. rewrite E in Hst. cbn in Hst.
      tauto.
    - destruct Hresp as [Hresp|Hresp]; [congruence|].
      cbn in E. inversion E; subst. cbn. auto. }
  destruct (head_response net ("http://" ++ snd (fst w))%string) as [response|] eqn:Hh.
  - destruct (code_in (status_code response) [404]%Z) eqn:H404; cbn [ret orb].
    + destruct (String.eqb_spec provider "azure") as [Hp|Hp].
      * apply (Hcall None). now right.
      * exists []. cbn. rewrite app_nil_r. auto.
    + apply (Hcall (Some response)). left. discriminate.
  - cbn [ret orb].
    destruct (String.eqb_spec provider "azure") as [Hp|Hp].
    + apply (Hcall None). now right.
    + exists []. cbn. rewrite app_nil_r. auto.
Qed.

(** The results of the brute-force worker are append-only: whatever the
    network does and whether the worker finishes or dies on an exception,
    the results it was given are still there, followed by at most one
    bucket per queue entry; each added bucket carries the name, domain and
    service label of an entry of the queue whose hostname resolved, the
    provider the worker was started for, and a state that is OPEN, PRIVATE
    or UNKNOWN, or DOMAIN for azure alone (never CLOSE). *)
Theorem search_buckets_worker_results net base_name provider q :
  forall results log,
  exists added,
    fst (snd (search_buckets_worker net base_name provider q (results, log))) =
      results ++ added /\
    (List.length added <= List.length q)%nat /\
    Forall (fun b => exists w, In w q /\ found_by net provider w b) added.
Proof.
  induction q as [|w q IH]; intros results log.
  - exists []. cbn. rewrite app_nil_r. auto.
  - cbn [search_buckets_worker]. unfold bind.
    destruct (search_buckets_item_adds net base_name provider w results log)
      as (added1 & E1 & H1).
    destruct (search_buckets_item net base_name provider w (results, log))
      as [[u|e] [results1 log1]]; cbn [fst snd] in E1; subst results1.
    + destruct (IH (results ++ added1) log1) as (added2 & E2 & L2 & F2).
      exists (added1 ++ added2). rewrite E2, app_assoc. split; [reflexivity|].
      split.
      * rewrite length_app. cbn [List.length].
        destruct H1 as [->|(b & -> & _)]; cbn; lia.
      * apply Forall_app. split.
        -- destruct H1 as [->|(b & -> & Hb)]; constructor; [|constructor].
           exists w. split; [now left | exact Hb].
        -- eapply Forall_impl; [|exact F2].
           intros b (w' & Hw' & Hb). exists w'. split; [now right | exact Hb].
    + exists added1. cbn [fst snd]. split; [reflexivity|]. split.
      * destruct H1 as [->|(b & -> & _)]; cbn; lia.
      * destruct H1 as [->|(b & -> & Hb)]; constructor; [|constructor].
        exists w. split; [now left | exact Hb].
Qed.

(** When [process_status] raises on a candidate (an ACL request that times
    out, an ACL document the loop cannot handle), the bucket it was
    classifying is not added to the results, the exception leaves the
    worker, and the worker probes none of the entries that were still
    queued: the log ends with the requests of the failed classification. *)
Theorem search_buckets_worker_dies net base_name provider w rest results log
  response e b' log' :
  resolves net (snd (fst w)) = true ->
  check_host net (snd (fst w)) (results, log ++ [DNS (snd (fst w))]) =
    (Returned (Some response),
     (results, (log ++ [DNS (snd (fst w))]) ++ [HEAD ("http://" ++ snd (fst w))%string])) ->
  process_status net base_name (Some response)
    (Bucket_init (PStr (snd w)) (snd (fst w)) provider (fst (fst w)),
     (log ++ [DNS (snd (fst w))]) ++ [HEAD ("http://" ++ snd (fst w))%string]) =
    (Raised e, (b', log')) ->
  search_buckets_worker net base_name provider (w :: rest) (results, log) =
  (Raised e, (results, log')).
Proof.
  intros Hdns Hhost Hps.
  cbn [search_buckets_worker].
  unfold bind at 1, search_buckets_item, bind at 1, check_dns, bind at 1, send, ret;
    cbn [fst snd].
  rewrite Hdns. unfold bind at 1. rewrite Hhost. cbn [orb].
  unfold bind, call; cbn [fst snd]. now rewrite Hps.
Qed.

Lemma search_buckets_worker_dies_witness :
  search_buckets_worker acl_timeout "acme" "aws"
    [acme_on_s3; ("AWS Bucket", "acme-dev.s3.amazonaws.com", "acme-dev")] ([], []) =
  (Raised RequestError,
   ([], [DNS "acme.s3.amazonaws.com"; HEAD "http://acme.s3.amazonaws.com";
         GET "https://acme.s3.amazonaws.com/?acl"])).
Proof.
  apply (search_buckets_worker_dies acl_timeout "acme" "aws" acme_on_s3
           [("AWS Bucket", "acme-dev.s3.amazonaws.com", "acme-dev")] [] []
           xml_listing RequestError
           (set_risk HIGH (details_append "LIST" (set_risk HIGH (set_risk MEDIUM
              (set_state OPEN (set_risk MEDIUM
                 (Bucket_init (PStr "acme") "acme.s3.amazonaws.com" "aws" "AWS Bucket"))))))));
    reflexivity.
Defined.

(** A 404 counts as no answer.  For a hostname that resolves and answers
    404, a provider other than azure gets no result; azure gets a bucket
    in state DOMAIN with risk LOW and no details.  Either way the requests
    are the DNS query and the HEAD probe, nothing else. *)
Theorem not_found_is_no_answer net base_name provider w results log response :
  resolves net (snd (fst w)) = true ->
  head_response net ("http://" ++ snd (fst w))%string = Some response ->
  status_code response = 404%Z ->
  search_buckets_item net base_name provider w (results, log) =
  (Returned tt,
   ((if String.eqb provider "azure"
     then results ++ [set_state DOMAIN
                        (Bucket_init (PStr (snd w)) (snd (fst w)) provider (fst (fst w)))]
     else results),
    (log ++ [DNS (snd (fst w))]) ++ [HEAD ("http://" ++ snd (fst w))%string])).
Proof.
  intros Hdns Hh H404.
  unfold search_buckets_item, check_dns, check_host, bind, send, ret, call,
    results_append, process_status, update; cbn [fst snd].
  rewrite Hdns, Hh, H404. cbn [code_in existsb Z.eqb Pos.eqb orb].
  destruct (String.eqb provider "azure"); reflexivity.
Qed.

Lemma not_found_is_no_answer_witness :
  search_buckets_item all_not_found "acme" "aws" acme_on_s3 ([], []) =
  (Returned tt,
   ((if String.eqb "aws" "azure"
     then [] ++ [set_state DOMAIN
                   (Bucket_init (PStr (snd acme_on_s3)) (snd (fst acme_on_s3)) "aws"
                      (fst (fst acme_on_s3)))]
     else []),
    ([] ++ [DNS (snd (fst acme_on_s3))]) ++
    [HEAD ("http://" ++ snd (fst acme_on_s3))%string])).
Proof.
  apply (not_found_is_no_answer all_not_found "acme" "aws" acme_on_s3 [] []
           (mkResponse 404 no_headers [] "http://acme.s3.amazonaws.com/"));
    reflexivity.
Defined.

(* ===================================================================== *)
(** * More on the fingerprint worker                                      *)
(* ===================================================================== *)

(** The provider decision.  It only ever names aws, google or azure.  An
    Amazon request-id header, or an FQDN containing s3.amazonaws.com,
    decides aws before anything else is looked at.  A URL with a Google
    signature and no Amazon one whose host ends in .google.com is dropped,
    and the Azure signatures are then never consulted. *)
Theorem fingerprint_priority lib url response :
  (forall provider,
      fingerprint lib url response = Some provider ->
      provider = "aws" \/ provider = "google" \/ provider = "azure") /\
  (has_header response "x-amz-request-id" = true \/
   has_header response "x-amz-id-2" = true \/
   Py.contains "s3.amazonaws.com" (fqdn (tldextract_extract lib url)) = true ->
   fingerprint lib url response = Some "aws") /\
  (fingerprint lib url response <> Some "aws" ->
   has_header response "X-GUploader-UploadID" = true \/
   has_header response "x-goog-metageneration" = true \/
   has_header response "X-Cloud-Trace-Context" = true \/
   Py.contains "storage.googleapis.com" (fqdn (tldextract_extract lib url)) = true \/
   Py.contains "appspot.com" (fqdn (tldextract_extract lib url)) = true ->
   Py.endswith ".google.com" (netloc (urlparse lib url)) = true ->
   fingerprint lib url response = None).
Proof.
  unfold fingerprint. cbn [existsb map snd awsCloud googleCloud].
  repeat split.
  - intros provider.
    repeat match goal with
           | |- context [if ?c then _ else _] => destruct c
           end; intros [= <-]; auto.
  - intros [H|[H|H]]; rewrite H; cbn [orb]; rewrite ?orb_true_r; reflexivity.
  - intros Hna Hg Hend.
    destruct (has_header response "x-amz-request-id" || (has_header response "x-amz-id-2" || false)
              || (Py.contains "s3.amazonaws.com" (fqdn (tldextract_extract lib url)) || false));
      [congruence|].
    rewrite Hend.
    destruct Hg as [H|[H|[H|[H|H]]]]; rewrite H; cbn [orb];
      rewrite ?orb_true_r; reflexivity.
Qed.

Lemma fingerprint_priority_witness :
  fingerprint plain_lib google_page_url google_page = None.
Proof.
  destruct (fingerprint_priority plain_lib google_page_url google_page)
    as (_ & _ & H).
  apply H.
  - discriminate.
  - right. right. left. reflexivity.
  - reflexivity.
Defined.

Lemma fingerprint_provider lib url response provider :
  fingerprint lib url response = Some provider ->
  provider = "aws" \/ provider = "google" \/ provider = "azure".
Proof.
  unfold fingerprint.
  repeat match goal with
         | |- context [if ?c then _ else _] => destruct c
         end; intros [= <-]; auto.
Qed.

Lemma log_grows_bind {A B} (m : Method A) (k : A -> Method B) :
  log_grows m -> (forall a, log_grows (k a)) -> log_grows (bind m k).
Proof.
  intros Hm Hk b log. destruct (Hm b log) as [new1 H1].
  unfold requests, bind in *.
  destruct (m (b, log)) as [[a|e] [b1 log1]]; cbn [fst snd] in *; subst log1.
  - destruct (Hk a b1 (log ++ new1)) as [new2 H2]. unfold requests in H2.
    exists (new1 ++ new2). now rewrite H2, app_assoc.
  - now exists new1.
Qed.

Lemma log_grows_silent {A} (m : Method A) : silent m -> log_grows m.
Proof. intros H b log. exists []. now rewrite H, app_nil_r. Qed.

Lemma log_grows_send r : log_grows (send r).
Proof. intros b log. now exists [r]. Qed.

Lemma silent_get_self : silent get_self.
Proof. intros b log; reflexivity. Qed.

Ltac log_step :=
  match goal with
  | |- log_grows (bind _ _) => apply log_grows_bind; [|intros ?]
  | |- log_grows (send _) => apply log_grows_send
  | |- log_grows (update _) => apply log_grows_silent, silent_update
  | |- log_grows (ret _) => apply log_grows_silent, silent_ret
  | |- log_grows (raise _) => apply log_grows_silent, silent_raise
  | |- log_grows get_self => apply log_grows_silent, silent_get_self
  | |- log_grows (grant_loop _ _) => apply log_grows_silent, silent_grant_loop
  | |- log_grows (when ?c _) => unfold when; destruct c
  | |- log_grows (if ?c then _ else _) => destruct c
  | |- log_grows (match ?x with _ => _ end) => destruct x
  end.

Lemma log_grows_probe_containers net d cs :
  forall fs, log_grows (probe_containers net d cs fs).
Proof.
  intros fs b log. unfold requests. rewrite probe_containers_run. now eexists.
Qed.

Lemma log_grows_get_rights net base_name : log_grows (get_rights net base_name).
Proof.
  unfold get_rights, _azure_acl, azure_shares, azure_containers, _google_acl,
    _aws_acl, requests_get_status.
  repeat first [apply log_grows_probe_containers | log_step].
Qed.

Lemma log_grows_process_status net base_name response :
  log_grows (process_status net base_name response).
Proof.
  destruct response as [response|]; cbn [process_status].
  - apply log_grows_bind; [|intros; apply log_grows_get_rights].
    intros b log. exists []. unfold requests.
    now rewrite classify_run, app_nil_r.
  - apply log_grows_silent, silent_update.
Qed.

(** One URL of the fingerprint worker.  It sends the HEAD request first.
    If that raises, or no provider is recognised, nothing is added and
    nothing else is sent.  Otherwise it adds at most one bucket (none when
    the classification raises), whose domain is the whole URL, whose
    provider is aws, google or azure with the service label Aws Cloud,
    Google Cloud or Azure Cloud, whose name is the derived name, and whose
    state is OPEN, PRIVATE or UNKNOWN. *)
Theorem what_cloud_item_adds net lib base_name url results log :
  exists added new,
    snd (what_cloud_item net lib base_name url (results, log)) =
      (results ++ added, (log ++ [HEAD url]) ++ new) /\
    (head_response net url = None -> added = [] /\ new = []) /\
    (forall response,
        head_response net url = Some response ->
        fingerprint lib url response = None -> added = [] /\ new = []) /\
    (added = [] \/
     exists b, added = [b] /\
       domain b = url /\ name b = bucket_name lib url /\
       ((cloud b = "aws" /\ srv_name b = "Aws Cloud") \/
        (cloud b = "google" /\ srv_name b = "Google Cloud") \/
        (cloud b = "azure" /\ srv_name b = "Azure Cloud")) /\
       (state b = OPEN \/ state b = PRIVATE \/ state b = UNKNOWN)).
Proof.
  unfold what_cloud_item, bind at 1, send; cbn [fst snd].
  destruct (head_response net url) as [response|] eqn:Hh.
  2:{ exists [], []. cbn. rewrite !app_nil_r. repeat split; auto; discriminate. }
  destruct (fingerprint lib url response) as [provider|] eqn:Hf.
  2:{ exists [], []. cbn. rewrite !app_nil_r. repeat split; auto; discriminate. }
  set (fresh := Bucket_init (bucket_name lib url) url provider
                  (Py.capitalize provider ++ " Cloud")%string).
  pose proof (process_status_identity net base_name (Some response) fresh
                (log ++ [HEAD url])) as Hid.
  pose proof (classified_states net base_name response fresh (log ++ [HEAD url])) as Hst.
  pose proof (log_grows_process_status net base_name (Some response) fresh
                (log ++ [HEAD url])) as [new Hnew].
  cbn zeta in Hid, Hst. unfold final in Hid, Hst. unfold requests in Hnew.
  unfold bind, call, results_append; cbn [fst snd].
  destruct (process_status net base_name (Some response) (fresh, log ++ [HEAD url]))
    as [[u|e] [b' log']]; cbn [fst snd] in *; subst log'.
  - exists [b'], new. split; [reflexivity|].
    split; [discriminate|]. split; [intros r Hr; inversion Hr; subst; congruence|].
    right. exists b'. split; [reflexivity|].
    destruct Hid as (Hn & Hd & Hc & Hs). rewrite Hn, Hd, Hc, Hs.
    split; [reflexivity|]. split; [reflexivity|]. split; [|exact Hst].
    destruct (fingerprint_provider lib url response provider Hf) as [-> | [-> | ->]];
      cbn; auto.
  - exists [], new. split; [now rewrite app_nil_r|].
    split; [discriminate|]. split; [intros r Hr; inversion Hr; subst; congruence | now left].
Qed.

(* ===================================================================== *)
(** * The crawl                                                           *)
(* ===================================================================== *)

Lemma filter_twice {A} (f g : A -> bool) (l : list A) :
  filter f (filter g l) = filter (fun x => g x && f x) l.
Proof.
  induction l as [|x l IH]; cbn; [reflexivity|].
  destruct (g x); cbn; [destruct (f x); now rewrite IH | exact IH].
Qed.

Lemma fresh_urls_known known url rest :
  mem url known = true ->
  fresh_urls known (url :: rest) = fresh_urls known rest.
Proof.
  intros H. unfold fresh_urls. cbn [first_seen filter]. rewrite H. cbn [negb].
  rewrite filter_twice. apply filter_ext. intros x.
  destruct (String.eqb_spec x url) as [->|_]; cbn; [now rewrite H | reflexivity].
Qed.

Lemma fresh_urls_new known url rest :
  mem url known = false ->
  fresh_urls known (url :: rest) = url :: fresh_urls (known ++ [url]) rest.
Proof.
  intros H. unfold fresh_urls. cbn [first_seen filter]. rewrite H. cbn [negb].
  f_equal. rewrite filter_twice. apply filter_ext. intros x.
  unfold mem. rewrite existsb_app. cbn [existsb]. fold (mem x known).
  rewrite orb_false_r. rewrite negb_orb. apply andb_comm.
Qed.

Section Crawl_facts.

Variable lib : UrlLib.
Variable pyset : PySet.
Variable html : HtmlLib.
Variable web : Web.

Lemma crawl_raw_urls_loop_run self urls :
  forall result known log,
    let fresh := fresh_urls known urls in
    let fetched := filter (fun u => negb (Gems.skipped lib self u)) fresh in
    Gems.crawl_raw_urls_loop lib pyset html web self urls result (known, log) =
    (Returned (result ++ raw_links_of pyset html web fetched),
     (known ++ fresh, log ++ map GET fetched)).
Proof.
  induction urls as [|url rest IH]; intros result known log; cbn zeta.
  - cbn. now rewrite !app_nil_r.
  - cbn [Gems.crawl_raw_urls_loop].
    unfold bind at 1, Gems.known_urls; cbn [fst snd].
    destruct (mem url known) eqn:Hk.
    + rewrite IH, fresh_urls_known by exact Hk. reflexivity.
    + rewrite fresh_urls_new by exact Hk.
      unfold bind at 1, Gems.known_urls_append; cbn [fst snd filter].
      destruct (Gems.skipped lib self url); cbn [negb].
      * rewrite IH. now rewrite <- app_assoc.
      * unfold bind at 1, send; cbn [fst snd map].
        unfold raw_links_of at 1. cbn [flat_map].
        fold (raw_links_of pyset html web
                (filter (fun u => negb (Gems.skipped lib self u))
                        (fresh_urls (known ++ [url]) rest))).
        destruct (web url) as [r|]; rewrite IH; cbn [app];
          now rewrite <- ?app_assoc.
Qed.

End Crawl_facts.

Lemma crawl_raw_urls_spec lib pyset html web self urls known log :
  let fresh := fresh_urls known urls in
  let fetched := filter (fun u => negb (Gems.skipped lib self u)) fresh in
  Gems.crawl_raw_urls lib pyset html web self urls (known, log) =
    (Returned (raw_links_of pyset html web fetched),
     (known ++ fresh, log ++ map GET fetched)) /\
  NoDup fresh /\
  (forall u, In u fresh <-> In u urls /\ ~ In u known).
Proof.
  cbn zeta. split; [|split].
  - unfold Gems.crawl_raw_urls. now rewrite crawl_raw_urls_loop_run.
  - unfold fresh_urls. apply NoDup_filter, first_seen_NoDup.
  - intros u. unfold fresh_urls. rewrite filter_In, first_seen_In.
    rewrite negb_true_iff. split.
    + intros [Hu Hk]. split; [exact Hu|].
      intros Hin. apply (proj2 (mem_In u known)) in Hin. congruence.
    + intros [Hu Hk]. split; [exact Hu|].
      destruct (mem u known) eqn:E; [|reflexivity].
      apply mem_In in E. contradiction.
Qed.

(** [crawl_raw_urls] in one equation.  Of the URLs it is given it takes,
    in order, each one that is not yet known, once; all of these are
    appended to [known_urls]; those among them without a skipped extension
    are fetched, one GET each; the result collects the raw links of the
    pages that answered.  It fetches nothing that was known, nothing
    twice, nothing with a skipped extension; the URL library and the
    pattern search returning on every input, it does not raise. *)
Theorem crawl_raw_urls_run lib pyset html web self urls known log :
  let fresh := fresh_urls known urls in
  let fetched := filter (fun u => negb (Gems.skipped lib self u)) fresh in
  Gems.crawl_raw_urls lib pyset html web self urls (known, log) =
    (Returned (raw_links_of pyset html web fetched),
     (known ++ fresh, log ++ map GET fetched)) /\
  NoDup fresh /\
  (forall u, In u fresh <-> In u urls /\ ~ In u known).
Proof. apply crawl_raw_urls_spec. Qed.


(** ** No URL is requested twice *)

Lemma new_at_ret {A} (a : A) known log : new_at (ret a) known log.
Proof.
  exists [], []. cbn. rewrite !app_nil_r.
  repeat split; try constructor; intros ? [].
Qed.

Lemma new_at_bind {A B} (m : Gems.Crawling A) (k : A -> Gems.Crawling B) known log :
  new_at m known log ->
  (forall a s', m (known, log) = (Returned a, s') -> new_at (k a) (fst s') (snd s')) ->
  new_at (bind m k) known log.
Proof.
  intros (a1 & f1 & E & Hn1 & Hd1 & Hi1 & Hf1) Hk. unfold new_at, bind.
  destruct (m (known, log)) as [[a|e] s'] eqn:Em; cbn [snd] in E; subst s'.
  - destruct (Hk a _ eq_refl) as (a2 & f2 & E2 & Hn2 & Hd2 & Hi2 & Hf2).
    cbn [fst snd] in *.
    exists (a1 ++ a2), (f1 ++ f2). rewrite E2, map_app, !app_assoc.
    split; [reflexivity|]. split; [|split; [|split]].
    + apply NoDup_app; auto. intros u Hu1 Hu2.
      apply (Hd2 u Hu2). apply in_or_app. now right.
    + intros u Hu Hin. apply in_app_or in Hu as [Hu|Hu].
      * now apply (Hd1 u).
      * apply (Hd2 u Hu). apply in_or_app. now left.
    + now apply incl_app_app.
    + apply NoDup_app; auto. intros u Hu1 Hu2.
      apply (Hd2 u (Hi2 u Hu2)). apply in_or_app. right. now apply Hi1.
  - exists a1, f1. cbn [snd]. auto.
Qed.

Lemma new_at_bind_all {A B} (m : Gems.Crawling A) (k : A -> Gems.Crawling B) known log :
  new_at m known log ->
  (forall a known' log', new_at (k a) known' log') ->
  new_at (bind m k) known log.
Proof. intros Hm Hk. apply new_at_bind; [exact Hm|]. intros. apply Hk. Qed.

Lemma new_at_lift {A} (o : outcome A) known log : new_at (Gems.lift o) known log.
Proof.
  exists [], []. cbn. rewrite !app_nil_r.
  repeat split; try constructor; intros ? [].
Qed.

Lemma new_at_known_urls known log : new_at Gems.known_urls known log.
Proof.
  exists [], []. cbn. rewrite !app_nil_r.
  repeat split; try constructor; intros ? [].
Qed.

Lemma root_at_new {A} (m : Gems.Crawling A) url known log :
  ~ In url known -> root_at m url known log -> new_at m known log.
Proof.
  intros Hu (added & fetched & E & Hn & Hd & Hi & Hf).
  exists (url :: added), (url :: fetched). split; [exact E|].
  split; [|split; [|split]].
  - constructor; [|exact Hn]. intros Hin. now destruct (Hd url Hin).
  - intros u [<-|Hin]; [exact Hu|]. now destruct (Hd u Hin).
  - intros u [<-|Hin]; [now left|]. right. now apply Hi.
  - constructor; [|exact Hf]. intros Hin. now destruct (Hd url (Hi url Hin)).
Qed.

Section Crawl_once.

Variable lib : UrlLib.
Variable pyset : PySet.
Variable html : HtmlLib.
Variable web : Web.

Lemma new_at_crawl_raw_urls self urls known log :
  new_at (Gems.crawl_raw_urls lib pyset html web self urls) known log.
Proof.
  destruct (crawl_raw_urls_spec lib pyset html web self urls known log)
    as (E & Hn & Hin).
  eexists _, _. rewrite E. cbn [snd]. split; [reflexivity|].
  split; [exact Hn|]. split; [|split].
  - intros u Hu. now apply Hin in Hu.
  - intros u Hu. now apply filter_In in Hu.
  - now apply NoDup_filter.
Qed.

Lemma new_at_crawl_children init :
  (forall child known log, root_at (init child) child known log) ->
  forall childs_urls childs known log,
    new_at (Gems.crawl_children init childs_urls childs) known log.
Proof.
  intros Hinit childs_urls.
  induction childs_urls as [|child rest IH]; intros childs known log.
  - apply new_at_ret.
  - cbn [Gems.crawl_children]. apply new_at_bind; [apply new_at_known_urls|].
    intros a s' [= <- <-]. cbn [fst snd].
    destruct (mem child known) eqn:Hk; [apply IH|].
    apply new_at_bind_all; [|intros; apply IH].
    apply (root_at_new _ child); [|apply Hinit].
    intros Hin. apply (proj2 (mem_In child known)) in Hin. congruence.
Qed.

Lemma root_at_crawl init url active_crawl known log :
  (forall init', init = Some init' ->
     forall child known log, root_at (init' child) child known log) ->
  root_at (Gems.crawl lib pyset html web init url active_crawl) url known log.
Proof.
  intros Hinit.
  assert (Hrest : forall rest : Gems.Crawling Crawl.HiddenGems,
             (forall known log, new_at rest known log) ->
             root_at (Gems.known_urls_append url ;; send (GET url) ;; rest)%py
                     url known log).
  { intros rest Hr.
    destruct (Hr (known ++ [url]) (log ++ [GET url]))
      as (added & fetched & E & Hn & Hd & Hi & Hf).
    exists added, fetched. unfold bind, Gems.known_urls_append, send.
    cbn [fst snd]. rewrite E.
    split; [cbn [map]; now rewrite <- !app_assoc|].
    split; [exact Hn|]. split; [|now split].
    intros u Hu. specialize (Hd u Hu). split.
    - intros Hin. apply Hd, in_or_app. now left.
    - intros ->. apply Hd, in_or_app. right. now left. }
  unfold Gems.crawl. apply Hrest. clear known log Hrest. intros known log.
  destruct (web url) as [r|]; [|apply new_at_ret].
  destruct (headers_get (page_headers r) "Content-Type") as [ct|];
    [|apply new_at_ret].
  destruct (negb (Py.contains "text/html" ct)); [apply new_at_ret|].
  apply new_at_bind_all; [apply new_at_lift|]. intros cors known1 log1.
  apply new_at_bind_all.
  - destruct active_crawl; [|apply new_at_ret].
    apply new_at_bind_all; [apply new_at_crawl_raw_urls|]. intros.
    apply new_at_bind_all; [apply new_at_crawl_raw_urls|]. intros.
    apply new_at_bind_all; [apply new_at_crawl_raw_urls|]. intros.
    apply new_at_ret.
  - intros urls known2 log2. destruct init as [init'|]; [|apply new_at_ret].
    apply new_at_bind_all; [|intros; apply new_at_ret].
    apply new_at_crawl_children. now apply Hinit.
Qed.

Lemma root_at_HiddenGems_init deep active_crawl :
  forall url known log,
    root_at (Gems.HiddenGems_init lib pyset html web deep active_crawl url)
            url known log.
Proof.
  induction deep as [|deeper IH]; intros url known log; cbn [Gems.HiddenGems_init];
    apply root_at_crawl.
  - discriminate.
  - intros init' [= <-]. exact IH.
Qed.

End Crawl_once.

(** A crawl never requests a URL twice.  Whatever the pages hold, however
    deep the crawl goes, with or without the active crawl, and whether it
    returns or raises: the requests of [HiddenGems(url, deep, active_crawl)]
    are GETs of the root and of URLs that were not in [known_urls] before,
    no two of them of the same URL, and every URL requested is in
    [known_urls] afterwards.  Since [known_urls] is a class attribute, what
    an earlier crawl recorded is never requested again by a later one
    (the root apart). *)
Theorem crawl_requests_once lib pyset html web deep active_crawl url known log :
  exists added fetched,
    snd (Gems.HiddenGems_init lib pyset html web deep active_crawl url (known, log)) =
      (known ++ url :: added, log ++ map GET (url :: fetched)) /\
    NoDup (url :: fetched) /\
    (forall u, In u fetched -> ~ In u known) /\
    incl fetched added /\
    NoDup added.
Proof.
  destruct (root_at_HiddenGems_init lib pyset html web deep active_crawl url known log)
    as (added & fetched & E & Hn & Hd & Hi & Hf).
  exists added, fetched. split; [exact E|]. split; [|split; [|split]]; auto.
  - constructor; [|exact Hf]. intros Hin. now destruct (Hd url (Hi url Hin)).
  - intros u Hu. now destruct (Hd u (Hi u Hu)).
Qed.

(** ** The crawl stays on the root's host and within its depth *)

Lemma yields_ret {A} (P : A -> Prop) (a : A) : P a -> yields P (ret a).
Proof. intros H s. now exists a. Qed.

Lemma yields_bind {A B} (P : A -> Prop) (Q : B -> Prop)
  (m : Gems.Crawling A) (k : A -> Gems.Crawling B) :
  yields P m -> (forall a, P a -> yields Q (k a)) -> yields Q (bind m k).
Proof.
  intros Hm Hk s. destruct (Hm s) as (a & E & Ha). unfold bind.
  destruct (m s) as [o s']. cbn [fst] in E. subst o. now apply Hk.
Qed.

Lemma yields_any {A} (m : Gems.Crawling A) :
  (forall s, exists a, fst (m s) = Returned a) -> yields (fun _ => True) m.
Proof. intros H s. destruct (H s) as (a & E). now exists a. Qed.

Lemma height_node_of lib url urls childs d :
  Forall (fun n => Gems.height n <= d) childs ->
  Gems.height (Gems.node_of lib url urls childs) <= S d.
Proof.
  unfold Gems.node_of. cbn [Gems.height Crawl.childs].
  induction 1 as [|n l Hn _ IH]; cbn [fold_right]; lia.
Qed.

Section Crawl_scope.

Variable lib : UrlLib.
Variable pyset : PySet.
Variable html : HtmlLib.
Variable web : Web.

Lemma yields_crawl_raw_urls self urls :
  yields (fun _ => True) (Gems.crawl_raw_urls lib pyset html web self urls).
Proof.
  apply yields_any. intros [known log].
  destruct (crawl_raw_urls_spec lib pyset html web self urls known log) as (E & _).
  rewrite E. now eexists.
Qed.

Lemma yields_crawl_children init (Q : Crawl.HiddenGems -> Prop) childs_urls :
  (forall c, In c childs_urls -> yields Q (init c)) ->
  forall childs, Forall Q childs ->
    yields (Forall Q) (Gems.crawl_children init childs_urls childs).
Proof.
  induction childs_urls as [|child rest IH]; intros Hinit childs Hc.
  - now apply yields_ret.
  - cbn [Gems.crawl_children].
    apply (yields_bind (fun _ => True)); [apply yields_any; now eexists|].
    intros known _.
    assert (Hrest : forall c, In c rest -> yields Q (init c))
      by (intros; apply Hinit; now right).
    destruct (mem child known); [now apply IH|].
    apply (yields_bind Q); [apply Hinit; now left|].
    intros node Hnode. apply IH; [exact Hrest|].
    apply Forall_app. split; [exact Hc|]. now constructor.
Qed.

(** A tree of one node is in scope at every depth. *)
Lemma in_scope_leaf deep url urls :
  in_scope lib deep url (Gems.node_of lib url urls []).
Proof.
  unfold in_scope, Gems.node_of.
  cbn [Crawl.url Crawl.domain Gems.height Gems.nodes Crawl.childs fold_right flat_map].
  repeat split; [lia|]. constructor; [|constructor]. now split.
Qed.

Lemma in_scope_node d url urls childs :
  Forall (fun n => netloc (urlparse lib (Crawl.url n)) = netloc (urlparse lib url) /\
                   in_scope lib d (Crawl.url n) n) childs ->
  in_scope lib (S d) url (Gems.node_of lib url urls childs).
Proof.
  intros Hc. unfold in_scope. split; [reflexivity|]. split; [reflexivity|]. split.
  - apply height_node_of. eapply Forall_impl; [|exact Hc].
    intros n (_ & _ & _ & Hh & _). exact Hh.
  - unfold Gems.node_of at 1.
    cbn [Gems.nodes Crawl.childs]. constructor; [now split|].
    change (Crawl.domain (Gems.node_of lib url urls childs))
      with (netloc (urlparse lib url)).
    induction Hc as [|n l (Hloc & _ & Hdom & _ & Hall) _ IH]; cbn [flat_map];
      [constructor|].
    apply Forall_app. split; [|exact IH].
    eapply Forall_impl; [|exact Hall]. cbn beta. intros m (Hm1 & Hm2).
    split; [exact Hm1|]. now rewrite Hm2, Hdom.
Qed.

Lemma yields_crawl init url active_crawl deep :
  match init with
  | None => True
  | Some init' =>
      exists d, deep = S d /\ forall c, yields (in_scope lib d c) (init' c)
  end ->
  yields (in_scope lib deep url)
         (Gems.crawl lib pyset html web init url active_crawl).
Proof.
  intros Hinit. unfold Gems.crawl.
  apply (yields_bind (fun _ => True)); [apply yields_any; now eexists|]. intros _ _.
  apply (yields_bind (fun _ => True)); [apply yields_any; now eexists|]. intros _ _.
  destruct (web url) as [r|]; [|apply yields_ret, in_scope_leaf].
  destruct (headers_get (page_headers r) "Content-Type") as [ct|];
    [|apply yields_ret, in_scope_leaf].
  destruct (negb (Py.contains "text/html" ct)); [apply yields_ret, in_scope_leaf|].
  apply (yields_bind (fun _ => True)).
  { apply yields_any. intros s. unfold Gems.lift, Crawl.extract_cors.
    rewrite hasattr_header_false. now eexists. }
  intros cors _.
  apply (yields_bind (fun _ => True)).
  { destruct active_crawl; [|now apply yields_ret].
    apply (yields_bind (fun _ => True)); [apply yields_crawl_raw_urls|]. intros ? _.
    apply (yields_bind (fun _ => True)); [apply yields_crawl_raw_urls|]. intros ? _.
    apply (yields_bind (fun _ => True)); [apply yields_crawl_raw_urls|]. intros ? _.
    now apply yields_ret. }
  intros urls _.
  destruct init as [init'|]; [|apply yields_ret, in_scope_leaf].
  destruct Hinit as (d & -> & Hinit).
  eapply yields_bind.
  - apply yields_crawl_children with
      (Q := fun n => netloc (urlparse lib (Crawl.url n)) = netloc (urlparse lib url) /\
                     in_scope lib d (Crawl.url n) n); [|constructor].
    intros c Hc. apply filter_In in Hc as [Hc _].
    apply filter_In in Hc as [_ Hc]. apply String.eqb_eq in Hc.
    cbn [Crawl.domain Gems.node_of] in Hc.
    intros s. destruct (Hinit c s) as (n & E & Hn). exists n. split; [exact E|].
    assert (Hu : Crawl.url n = c) by apply Hn. rewrite Hu. now split.
  - intros childs Hchilds. apply yields_ret. now apply in_scope_node.
Qed.

Lemma yields_HiddenGems_init deep active_crawl :
  forall url,
    yields (in_scope lib deep url)
           (Gems.HiddenGems_init lib pyset html web deep active_crawl url).
Proof.
  induction deep as [|d IH]; intros url; cbn [Gems.HiddenGems_init];
    apply yields_crawl; [exact I|]. now exists d.
Qed.

End Crawl_scope.

(** With a URL library and a parser that return on every input, a crawl
    always returns a tree, and the tree stays in scope: its root is the node of [url], it has at most [deep] levels
    below the root, and every node of it, at whatever level, is on the host
    of [url]: the network location of the node's own URL is that of the
    root. *)
Theorem crawl_stays_in_scope lib pyset html web deep active_crawl url known log :
  exists tree,
    fst (Gems.HiddenGems_init lib pyset html web deep active_crawl url (known, log)) =
      Returned tree /\
    Crawl.url tree = url /\
    Gems.height tree <= deep /\
    Forall (fun n => netloc (urlparse lib (Crawl.url n)) = netloc (urlparse lib url) /\
                     Crawl.domain n = netloc (urlparse lib url))
           (Gems.nodes tree).
Proof.
  destruct (yields_HiddenGems_init lib pyset html web deep active_crawl url (known, log))
    as (tree & E & Hu & Hd & Hh & Hall).
  exists tree. repeat split; auto.
  eapply Forall_impl; [|exact Hall]. cbn beta. intros n (H1 & H2).
  rewrite <- H1, H2. now split.
Qed.

(** A page that does not answer, answers without a [Content-Type], or with
    one that does not contain [text/html], gives a node without URLs and
    without children at every depth, crawling actively or not; its URL is
    recorded in [known_urls] all the same, and the one request made is the
    GET of the page. *)
Theorem crawl_of_no_html_page lib pyset html web deep active_crawl url known log :
  answers_html web url = false ->
  Gems.HiddenGems_init lib pyset html web deep active_crawl url (known, log) =
    (Returned (Gems.node_of lib url [] []), (known ++ [url], log ++ [GET url])).
Proof.
  unfold answers_html. intros H.
  assert (E : forall init,
             Gems.crawl lib pyset html web init url active_crawl (known, log) =
             (Returned (Gems.node_of lib url [] []),
              (known ++ [url], log ++ [GET url]))).
  { intros init. unfold Gems.crawl, bind, Gems.known_urls_append, send.
    cbn [fst snd].
    destruct (web url) as [r|]; [|reflexivity].
    destruct (headers_get (page_headers r) "Content-Type") as [ct|];
      [|reflexivity].
    now rewrite H. }
  destruct deep; cbn [Gems.HiddenGems_init]; apply E.
Qed.

Lemma crawl_of_no_html_page_witness :
  answers_html unreachable "http://example.com" = false /\
  Gems.HiddenGems_init plain_lib reversing_set no_tags unreachable 2 true
    "http://example.com" ([], []) =
    (Returned (Gems.node_of plain_lib "http://example.com" [] []),
     ([] ++ ["http://example.com"], [] ++ [GET "http://example.com"])).
Proof.
  split; [reflexivity|].
  apply (crawl_of_no_html_page plain_lib reversing_set no_tags unreachable 2 true
           "http://example.com" [] []).
  reflexivity.
Defined.
